(** * Earthquake dashboard: the four chart callbacks of [app.py]

    A shallow embedding of the filter / group / pivot pipeline behind the
    dashboard's callbacks, together with the part of pandas it relies on:
    labelled rows, boolean indexing with index alignment, column
    assignment, [groupby(...).size()] and [pivot].  Frames live in a store
    and are handled through references, as Python objects are, so that
    copying and in-place assignment are visible in the model. *)

From Stdlib Require Import ZArith PrimFloat OrdersEx.
From stdpp Require Import base tactics option list sorting strings.

Local Open Scope Z_scope.

(** ** Records of the source table *)

(** A parsed [date_time] value ([pd.to_datetime(..., format="%d-%m-%Y %H:%M")]). *)
Record Timestamp := mkTimestamp {
  ts_day : Z; ts_month : Z; ts_year : Z; ts_hour : Z; ts_minute : Z
}.

(** One data row of [earthquake_data_fix.csv]. *)
Record Earthquake := mkEarthquake {
  date_time : Timestamp;
  country : string;
  latitude : float;
  longitude : float;
  magnitude : float;
  depth : float;
  depth_label : string
}.

(** ** Series and frames *)

(** A pandas Series: values tagged with their index label. *)
Definition Series (A : Type) : Type := list (nat * A).

(** A pandas DataFrame over the CSV schema: labelled rows, plus the integer
    columns added later by assignment ([filtered_df["year"] = ...]), stored
    by name with one cell per row (a missing cell is [None], pandas' NaN). *)
Record DataFrame := mkDataFrame {
  df_rows : list (nat * Earthquake);
  df_added : list (string * list (option Z))
}.

Definition df_index (df : DataFrame) : list nat := fst <$> df_rows df.

(** The table as lines 14-17 of [app.py] load it: [records] are the data
    rows of the file (footer lines skipped, [date_time] parsed), and
    [pd.read_csv] labels them with a default RangeIndex [0 .. n-1]. *)
Definition read_csv (records : list Earthquake) : DataFrame :=
  {| df_rows := zip (seq 0 (length records)) records; df_added := [] |}.

(** ** Exceptions, store and the callback monad *)

Inductive exn :=
  | IndexError      (* list index out of range *)
  | KeyError        (* column not found *)
  | ValueError      (* wrong length, duplicate labels, duplicate pivot entries *)
  | IndexingError   (* unalignable boolean Series *)
  | ReferenceError  (* dangling frame reference; unreachable from Python *)
  | Unmodelled.     (* pandas behaviour this embedding does not cover *)

Definition ref := nat.
Definition Store := list DataFrame.

(** The module-level table [df_earthquakes] is the first object allocated. *)
Definition df_earthquakes : ref := 0%nat.

Definition M (A : Type) : Type := Store → exn + (A * Store).

Definition ret {A} (a : A) : M A := λ s, inr (a, s).
Definition raise {A} (e : exn) : M A := λ _, inl e.
Definition bind {A B} (c : M A) (k : A → M B) : M B :=
  λ s, match c s with
       | inl e => inl e
       | inr (a, s') => k a s'
       end.
Definition lift {A} (r : exn + A) : M A :=
  match r with inl e => raise e | inr a => ret a end.

Notation "x <- c ;; k" := (bind c (λ x, k))
  (at level 100, c at next level, right associativity).
Notation "c ;;; k" := (bind c (λ _, k))
  (at level 100, right associativity).

Definition deref (r : ref) : M DataFrame :=
  λ s, match s !! r with Some df => inr (df, s) | None => inl ReferenceError end.
Definition alloc (df : DataFrame) : M ref :=
  λ s, inr (length s, s ++ [df]).
Definition assign (r : ref) (df : DataFrame) : M unit :=
  λ s, inr (tt, <[r := df]> s).

(** [xs[i]] on a Python list. *)
Definition getitem {A} (xs : list A) (i : nat) : M A :=
  match xs !! i with Some x => ret x | None => raise IndexError end.

(** ** Series operations *)

Definition smap {A B} (f : A → B) (s : Series A) : Series B :=
  prod_map id f <$> s.

(** [df[name]] for a column of the CSV schema. *)
Definition column {A} (f : Earthquake → A) (df : DataFrame) : Series A :=
  smap f (df_rows df).

(** [s.dt.year] *)
Definition dt_year (s : Series Timestamp) : Series Z := smap ts_year s.

(** [s.between(left, right)]: both ends inclusive. *)
Definition between (s : Series Z) (left right : Z) : Series bool :=
  smap (λ y, (left <=? y) && (y <=? right)) s.

(** [s == value] on a string column. *)
Definition series_eq (s : Series string) (value : string) : Series bool :=
  smap (λ x, String.eqb x value) s.

(** [s.isin(values)] *)
Definition isin (s : Series string) (values : list string) : Series bool :=
  smap (λ x, bool_decide (x ∈ values)) s.

(** [a & b]: with identical indexes pandas combines the operands position
    by position; alignment of differing indexes is left out. *)
Definition series_and (a b : Series bool) : exn + Series bool :=
  if decide (a.*1 = b.*1)
  then inr (zip_with (λ x y, (x.1, x.2 && y.2)) a b)
  else inl Unmodelled.

(** Value stored under a key in an association list (first match). *)
Fixpoint assoc {K V} `{EqDecision K} (k : K) (l : list (K * V)) : option V :=
  match l with
  | [] => None
  | (k', v) :: l' => if decide (k' = k) then Some v else assoc k l'
  end.

(** Rows kept by a positional boolean mask. *)
Fixpoint take_mask {A} (mask : list bool) (l : list A) : list A :=
  match mask, l with
  | b :: mask', x :: l' =>
      if b then x :: take_mask mask' l' else take_mask mask' l'
  | _, _ => []
  end.

(** [check_bool_indexer]: a boolean Series used as a key is brought to the
    index of the frame it selects from.  Equal indexes need nothing; else
    every frame label is looked up in the key, and a label the key lacks
    raises.  Keys with repeated labels are left out. *)
Definition check_bool_indexer (index : list nat) (key : Series bool)
  : exn + list bool :=
  if decide (key.*1 = index) then inr key.*2
  else if decide (NoDup key.*1) then
    match mapM (λ i, assoc i key) index with
    | Some mask => inr mask
    | None => inl IndexingError
    end
  else inl Unmodelled.

Definition take_rows (mask : list bool) (df : DataFrame) : DataFrame :=
  {| df_rows := take_mask mask (df_rows df);
     df_added := prod_map id (take_mask mask) <$> df_added df |}.

(** [df[key]] with a boolean Series: a new frame holding the selected rows. *)
Definition getitem_bool (r : ref) (key : Series bool) : M ref :=
  df <- deref r ;;
  mask <- lift (check_bool_indexer (df_index df) key) ;;
  alloc (take_rows mask df).

(** [df.copy()] *)
Definition copy (r : ref) : M ref :=
  df <- deref r ;; alloc df.

(** [df[name]] for a CSV column of the frame behind a reference. *)
Definition col {A} (r : ref) (f : Earthquake → A) : M (Series A) :=
  df <- deref r ;; ret (column f df).

Definition set_added (name : string) (cells : list (option Z))
    (added : list (string * list (option Z))) : list (string * list (option Z)) :=
  if decide (name ∈ added.*1)
  then (λ c, if decide (c.1 = name) then (name, cells) else c) <$> added
  else added ++ [(name, cells)].

(** [df[name] = value]: in-place assignment of an integer column to the
    frame behind [r].  A value carrying the frame's own index is stored as
    it is; reindexing of a differently indexed value is left out. *)
Definition setitem (r : ref) (name : string) (value : Series Z) : M unit :=
  df <- deref r ;;
  if decide (value.*1 = df_index df)
  then assign r {| df_rows := df_rows df;
                   df_added := set_added name (Some <$> value.*2) (df_added df) |}
  else raise Unmodelled.

(** ** Grouping and pivoting *)

Section groupby.
Context {K : Type} (cmp : K → K → comparison).

Fixpoint tally (k : K) (groups : list (K * nat)) : list (K * nat) :=
  match groups with
  | [] => [(k, 1%nat)]
  | (k', n) :: groups' =>
      match cmp k k' with
      | Eq => (k', S n) :: groups'
      | Lt => (k, 1%nat) :: groups
      | Gt => (k', n) :: tally k groups'
      end
  end.

(** [groupby(keys).size().reset_index(name="count")]: one entry per
    observed key, in ascending key order ([sort=True]), with the number
    of rows carrying that key. *)
Definition groupby_size (keys : list K) : list (K * nat) :=
  foldr tally [] keys.

(** The distinct values in ascending order. *)
Definition sorted_unique (keys : list K) : list K :=
  (groupby_size keys).*1.

End groupby.

(** Order of the group keys [(year, depth_label)]. *)
Definition cmp_year_label (a b : Z * string) : comparison :=
  match a.1 ?= b.1 with
  | Eq => String.compare a.2 b.2
  | c => c
  end.

(** The group keys of [groupby(["year", "depth_label"])]: rows whose
    "year" cell is missing are dropped ([dropna=True]). *)
Definition year_label_keys (df : DataFrame) : exn + list (Z * string) :=
  match assoc "year" (df_added df) with
  | Some years =>
      inr (omap (λ p, (λ y, (y, depth_label p.2.2)) <$> p.1)
                (zip years (df_rows df)))
  | None => inl KeyError
  end.

(** A pivoted table of counts: row labels, and named columns holding one
    cell per row label; [None] is a missing cell (NaN). *)
Record Pivot := mkPivot {
  pv_index : list Z;
  pv_columns : list (string * list (option nat))
}.

(** [counts.pivot(index="year", columns="depth_label", values="count")] *)
Definition pivot (counts : list (Z * string * nat)) : exn + Pivot :=
  if decide (NoDup counts.*1) then
    let index := sorted_unique Z.compare counts.*1.*1 in
    let labels := sorted_unique String.compare counts.*1.*2 in
    inr {| pv_index := index;
           pv_columns :=
             (λ l, (l, (λ y, assoc (y, l) counts) <$> index)) <$> labels |}
  else inl ValueError.

(** [table[cols]] with a list of column names. *)
Definition getitem_columns (table : Pivot) (cols : list string) : exn + Pivot :=
  match mapM (λ c, pair c <$> assoc c (pv_columns table)) cols with
  | Some cs => inr {| pv_index := pv_index table; pv_columns := cs |}
  | None => inl KeyError
  end.

(** [table.empty]: some axis has length zero. *)
Definition pv_empty (table : Pivot) : bool :=
  match pv_index table, pv_columns table with
  | [], _ | _, [] => true
  | _, _ => false
  end.

(** ** Figures *)

(** An f-string: literal text and formatted values, in order. *)
Inductive fpart :=
  | Lit (s : string)
  | FStr (s : string)
  | FInt (z : Z)
  | FFloat (x : float).

Inductive chart := ScatterGeo | Line | Bar | Scatter | Pie.

(** What a figure plots: the rows of the frame handed to plotly express,
    a pivoted table in wide form, pie slices, or nothing.  How plotly
    splits the rows into traces and draws them is not modelled. *)
Inductive FigData :=
  | Points (rows : list (nat * Earthquake))
  | Bars (table : Pivot)
  | Slices (groups : list (string * nat))
  | NoData.

Record Figure := mkFigure {
  fig_chart : chart;
  fig_title : option (list fpart);
  fig_data : FigData
}.

Definition px_frame (kind : chart) (r : ref) (title : list fpart) : M Figure :=
  df <- deref r ;;
  ret {| fig_chart := kind; fig_title := Some title;
         fig_data := Points (df_rows df) |}.

(** [px.scatter_geo(df, lat=..., lon=..., color=..., size=..., title=...)] *)
Definition px_scatter_geo := px_frame ScatterGeo.
(** [px.line(df, x="date_time", y="magnitude", color="country", title=...)] *)
Definition px_line := px_frame Line.
(** [px.scatter(df, x="depth", y="magnitude", color="depth_label", title=...)] *)
Definition px_scatter := px_frame Scatter.

(** [px.bar()] with no arguments: a chart shell without data or title. *)
Definition px_bar_empty : Figure :=
  {| fig_chart := Bar; fig_title := None; fig_data := NoData |}.

(** [px.bar(table, x=table.index, y=columns, title=...)] *)
Definition px_bar (table : Pivot) (title : list fpart) : Figure :=
  {| fig_chart := Bar; fig_title := Some title; fig_data := Bars table |}.

(** [px.pie(counts, values="count", names="country", title=...)] *)
Definition px_pie (counts : list (string * nat)) (title : list fpart) : Figure :=
  {| fig_chart := Pie; fig_title := Some title; fig_data := Slices counts |}.

(** [fig.update_layout(title=...)] *)
Definition update_layout_title (fig : Figure) (title : list fpart) : Figure :=
  {| fig_chart := fig_chart fig; fig_title := Some title;
     fig_data := fig_data fig |}.

(** ** The callbacks *)

(** [frame["date_time"].dt.year.between(years_range[0], years_range[1])] *)
Definition year_mask (frame : ref) (years_range : list Z) : M (Series bool) :=
  dates <- col frame date_time ;;
  lo <- getitem years_range 0 ;;
  hi <- getitem years_range 1 ;;
  ret (between (dt_year dates) lo hi).

(** The [if selected_country == "All Countries": ... else: ...] block that
    opens [update_bubble_map] and [update_bar_chart] (on [df_earthquakes])
    and [update_scatter_chart] (on its copy): boolean indexing of [frame]
    by year range and, unless the sentinel is selected, by country. *)
Definition country_year_filter (frame : ref) (selected_country : string)
    (years_range : list Z) : M ref :=
  if String.eqb selected_country "All Countries" then
    years <- year_mask frame years_range ;;
    getitem_bool frame years
  else
    countries <- col frame country ;;
    years <- year_mask frame years_range ;;
    key <- lift (series_and (series_eq countries selected_country) years) ;;
    getitem_bool frame key.

Definition title_suffix (selected_country : string) (years_range : list Z)
  : M (list fpart) :=
  lo <- getitem years_range 0 ;;
  hi <- getitem years_range 1 ;;
  ret [FStr selected_country; Lit " from "; FInt lo; Lit " to "; FInt hi].

Definition update_bubble_map (selected_country : string) (years_range : list Z)
  : M (Figure * Figure) :=
  filtered_df <- country_year_filter df_earthquakes selected_country years_range ;;
  span <- title_suffix selected_country years_range ;;
  bubble_map_fig <- px_scatter_geo filtered_df (Lit "Earthquakes in " :: span) ;;
  span <- title_suffix selected_country years_range ;;
  scatter_plot_fig <- px_line filtered_df (Lit "Earthquakes in " :: span) ;;
  ret (bubble_map_fig, scatter_plot_fig).

Definition desired_order : list string := ["Low"; "Mid"; "High"].

Definition bar_title (selected_country : string) (years_range : list Z)
  : M (list fpart) :=
  span <- title_suffix selected_country years_range ;;
  ret (Lit "Number of earthquakes according to the depth label in " :: span).

Definition update_bar_chart (selected_country : string) (years_range : list Z)
    (selected_depth : list string) : M Figure :=
  filtered_df <- country_year_filter df_earthquakes selected_country years_range ;;
  dates <- col filtered_df date_time ;;
  setitem filtered_df "year" (dt_year dates) ;;;
  grouped <- deref filtered_df ;;
  keys <- lift (year_label_keys grouped) ;;
  let df_counts_per_year_and_depth := groupby_size cmp_year_label keys in
  df_rearranged_counts_per_year <- lift (pivot df_counts_per_year_and_depth) ;;
  let selected_columns :=
    filter (λ col, col ∈ selected_depth
                   ∧ col ∈ (pv_columns df_rearranged_counts_per_year).*1)
           desired_order in
  df_rearranged_counts_per_year <-
    lift (getitem_columns df_rearranged_counts_per_year selected_columns) ;;
  if pv_empty df_rearranged_counts_per_year then
    title <- bar_title selected_country years_range ;;
    ret (update_layout_title px_bar_empty title)
  else
    title <- bar_title selected_country years_range ;;
    ret (px_bar df_rearranged_counts_per_year title).

Definition update_scatter_chart (selected_country : string)
    (selected_depth : list string) (years_range : list Z) : M Figure :=
  df_copy <- copy df_earthquakes ;;
  years_df <- country_year_filter df_copy selected_country years_range ;;
  labels <- col df_earthquakes depth_label ;;
  filtered_df <- getitem_bool years_df (isin labels selected_depth) ;;
  span <- title_suffix selected_country years_range ;;
  px_scatter filtered_df
    ([Lit "Distribution of earthquakes according to depth label in "]
       ++ span ++ [Lit " per depth label"]).

(** [s >= value] on a float column. *)
Definition series_ge (s : Series float) (value : float) : Series bool :=
  smap (λ x, PrimFloat.leb value x) s.

Definition update_pie_chart (years_range : list Z) (selected_magnitude : float)
  : M Figure :=
  years <- year_mask df_earthquakes years_range ;;
  magnitudes <- col df_earthquakes magnitude ;;
  key <- lift (series_and years (series_ge magnitudes selected_magnitude)) ;;
  filtered_df <- getitem_bool df_earthquakes key ;;
  countries <- col filtered_df country ;;
  let filtered_df := take 5 (groupby_size String.compare countries.*2) in
  let fig := px_pie filtered_df [Lit "Earthquake Intensity Distribution"] in
  lo <- getitem years_range 0 ;;
  hi <- getitem years_range 1 ;;
  let title := [Lit "Top 5 earthquakes from "; FInt lo; Lit " to "; FInt hi;
                Lit " with mag >= "; FFloat selected_magnitude] in
  ret (update_layout_title fig title).

(** ** The country dropdown *)

(** [s.unique()]: the distinct values, in order of first appearance. *)
Fixpoint unique_from {A} `{EqDecision A} (seen l : list A) : list A :=
  match l with
  | [] => []
  | x :: l' =>
      if decide (x ∈ seen) then unique_from seen l'
      else x :: unique_from (x :: seen) l'
  end.

Definition unique {A} `{EqDecision A} (l : list A) : list A := unique_from [] l.

(** [sorted(xs)] on strings: ascending, equal strings kept in their order. *)
Fixpoint insert_sorted (x : string) (l : list string) : list string :=
  match l with
  | [] => [x]
  | y :: l' =>
      match String.compare x y with
      | Gt => y :: insert_sorted x l'
      | _ => x :: l
      end
  end.

Definition sorted (l : list string) : list string := foldr insert_sorted [] l.

(** An entry of the dropdown: [{"label": ..., "value": ...}]. *)
Record DropdownOption := mkOption { opt_label : string; opt_value : string }.

(** The module-level [dropdown_options]: the sentinel, then one option per
    country of the table. *)
Definition dropdown_options : M (list DropdownOption) :=
  countries <- col df_earthquakes country ;;
  ret ([mkOption "All Countries" "All Countries"]
         ++ ((λ country, mkOption country country)
               <$> sorted (unique countries.*2))).

(** ** Vocabulary of the specification *)

(** Number of entries of [l] equal to [k]. *)
Definition occurrences {A} `{EqDecision A} (k : A) (l : list A) : nat :=
  length (filter (λ x, x = k) l).

(** Strictly ascending under a three-way comparison. *)
Definition ascending {K} (cmp : K → K → comparison) (l : list K) : Prop :=
  StronglySorted (λ a b, cmp a b = Lt) l.

(** A three-way comparison that decides a strict total order; the order of
    group keys is of this kind. *)
Class CmpOrder {K} (cmp : K → K → comparison) : Prop := {
  cmp_eq a b : cmp a b = Eq ↔ a = b;
  cmp_gt a b : cmp a b = Gt → cmp b a = Lt;
  cmp_trans a b c : cmp a b = Lt → cmp b c = Lt → cmp a c = Lt
}.

(** *** The country and year filter *)

Definition in_years (lo hi : Z) (e : Earthquake) : Prop :=
  lo ≤ ts_year (date_time e) ≤ hi.

Definition passes (selected_country : string) (lo hi : Z) (e : Earthquake) : Prop :=
  in_years lo hi e
  ∧ (selected_country = "All Countries" ∨ country e = selected_country).

#[global] Instance in_years_dec lo hi e : Decision (in_years lo hi e).
Proof. unfold in_years. apply _. Defined.

#[global] Instance passes_dec sc lo hi e : Decision (passes sc lo hi e).
Proof. unfold passes. apply _. Defined.

(** The mask value the callbacks compute for one row. *)
Definition year_ok (lo hi : Z) (e : Earthquake) : bool :=
  (lo <=? ts_year (date_time e)) && (ts_year (date_time e) <=? hi).

Definition keep (selected_country : string) (lo hi : Z) (e : Earthquake) : bool :=
  if String.eqb selected_country "All Countries" then year_ok lo hi e
  else String.eqb (country e) selected_country && year_ok lo hi e.

(** The rows of a frame that pass the country and year filter. *)
Definition matching (selected_country : string) (lo hi : Z)
    (rows : list (nat * Earthquake)) : list (nat * Earthquake) :=
  filter (λ r, passes selected_country lo hi r.2) rows.

(** *** What a figure shows *)

Definition fig_points (fig : Figure) : list (nat * Earthquake) :=
  match fig_data fig with Points rows => rows | _ => [] end.

Definition fig_slices (fig : Figure) : list (string * nat) :=
  match fig_data fig with Slices groups => groups | _ => [] end.

(** The column names of the table a bar figure shows. *)
Definition fig_columns (fig : Figure) : list string :=
  match fig_data fig with Bars table => (pv_columns table).*1 | _ => [] end.

(** The cell of a pivoted table at row label [y] and column [l]: [None]
    when the table has no such row or column, [Some None] for a missing
    cell, [Some (Some n)] for a count. *)
Definition pv_cell (table : Pivot) (y : Z) (l : string) : option (option nat) :=
  match assoc l (pv_columns table) with
  | Some cells => assoc y (zip (pv_index table) cells)
  | None => None
  end.

(** Sum of the counts in a column, in a table and in a figure; a missing
    cell holds no count. *)
Definition column_total (cells : list (option nat)) : nat :=
  sum_list (omap id cells).

Definition table_total (table : Pivot) : nat :=
  sum_list (column_total <$> (pv_columns table).*2).

Definition cells_total (fig : Figure) : nat :=
  match fig_data fig with Bars table => table_total table | _ => 0%nat end.

(** *** The scatter query *)

Definition scatter_points (selected_country : string) (lo hi : Z)
    (selected_depth : list string) (rows : list (nat * Earthquake))
  : list (nat * Earthquake) :=
  filter (λ r, depth_label r.2 ∈ selected_depth)
         (matching selected_country lo hi rows).

Definition scatter_title (sc : string) (lo hi : Z) : list fpart :=
  [Lit "Distribution of earthquakes according to depth label in "; FStr sc;
   Lit " from "; FInt lo; Lit " to "; FInt hi; Lit " per depth label"].

(** The scatter query as the specification words it: the depth-label test
    is computed on the country and year subset itself, not on the full
    table. *)
Definition update_scatter_chart_direct (selected_country : string)
    (selected_depth : list string) (years_range : list Z) : M Figure :=
  df_copy <- copy df_earthquakes ;;
  years_df <- country_year_filter df_copy selected_country years_range ;;
  labels <- col years_df depth_label ;;
  filtered_df <- getitem_bool years_df (isin labels selected_depth) ;;
  span <- title_suffix selected_country years_range ;;
  px_scatter filtered_df
    ([Lit "Distribution of earthquakes according to depth label in "]
       ++ span ++ [Lit " per depth label"]).

(** *** The pie query *)

(** [magnitude >= threshold] as the float comparison decides it. *)
Definition strong (threshold : float) (e : Earthquake) : Prop :=
  PrimFloat.leb threshold (magnitude e).

(** The rows of the pie query: year range and magnitude, any country. *)
Definition pie_rows (lo hi : Z) (threshold : float)
    (rows : list (nat * Earthquake)) : list (nat * Earthquake) :=
  filter (λ r, in_years lo hi r.2 ∧ strong threshold r.2) rows.

Definition pie_title (lo hi : Z) (threshold : float) : list fpart :=
  [Lit "Top 5 earthquakes from "; FInt lo; Lit " to "; FInt hi;
   Lit " with mag >= "; FFloat threshold].

(** Groups listed from the largest count to the smallest. *)
Definition count_descending (groups : list (string * nat)) : Prop :=
  StronglySorted (λ a b, (b.2 ≤ a.2)%nat) groups.

(** *** The depth-stacked query *)

(** The group key of a record. *)
Definition year_label (e : Earthquake) : Z * string :=
  (ts_year (date_time e), depth_label e).

(** Number of filtered rows of a given year and depth label. *)
Definition cell_count (selected_country : string) (lo hi : Z)
    (rows : list (nat * Earthquake)) (y : Z) (l : string) : nat :=
  length (filter (λ r, year_label r.2 = (y, l))
                 (matching selected_country lo hi rows)).

(** The long table of counts per [(year, depth_label)] over the rows that
    pass the country and year filter. *)
Definition bar_counts (selected_country : string) (lo hi : Z)
    (rows : list (nat * Earthquake)) : list (Z * string * nat) :=
  groupby_size cmp_year_label
    (year_label <$> (matching selected_country lo hi rows).*2).

(** The columns the bar chart keeps. *)
Definition bar_columns (selected_country : string) (lo hi : Z)
    (selected_depth : list string) (rows : list (nat * Earthquake))
  : list string :=
  let counts := bar_counts selected_country lo hi rows in
  filter (λ col, col ∈ selected_depth
                 ∧ col ∈ sorted_unique String.compare counts.*1.*2)
         desired_order.

(** The pivoted table restricted to the kept columns. *)
Definition bar_table (selected_country : string) (lo hi : Z)
    (selected_depth : list string) (rows : list (nat * Earthquake)) : Pivot :=
  let counts := bar_counts selected_country lo hi rows in
  let index := sorted_unique Z.compare counts.*1.*1 in
  {| pv_index := index;
     pv_columns :=
       (λ l, (l, (λ y, assoc (y, l) counts) <$> index))
         <$> bar_columns selected_country lo hi selected_depth rows |}.

Definition bar_title_of (sc : string) (lo hi : Z) : list fpart :=
  [Lit "Number of earthquakes according to the depth label in "; FStr sc;
   Lit " from "; FInt lo; Lit " to "; FInt hi].

(** The figure the bar callback builds from a table. *)
Definition bar_figure (title : list fpart) (table : Pivot) : Figure :=
  if pv_empty table then mkFigure Bar (Some title) NoData
  else mkFigure Bar (Some title) (Bars table).

(** *** Sample tables *)

(** A record with the given year, country, magnitude and depth label: noon
    on 1 January, at the origin, 10 km deep. *)
Definition quake (y : Z) (c : string) (m : float) (d : string) : Earthquake :=
  {| date_time := mkTimestamp 1 1 y 12 0; country := c;
     latitude := 0%float; longitude := 0%float;
     magnitude := m; depth := 10%float; depth_label := d |}.

(** The scenario of the specification: three matching records between 2010
    and 2015, two labelled Low and one High, and one record out of range. *)
Definition scenario : list Earthquake :=
  [quake 2010 "Chile" 7.5 "Low"; quake 2012 "Japan" 6.5 "High";
   quake 2012 "Peru" 8 "Low"; quake 2005 "Fiji" 7 "Mid"].

(** Nine strong earthquakes in six countries; the country with the most
    comes last in alphabetical order and first in the table. *)
Definition six_countries : list Earthquake :=
  [quake 2010 "F" 7.5 "Low"; quake 2010 "F" 7.5 "Low"; quake 2010 "F" 7.5 "Low";
   quake 2010 "E" 7.5 "Low"; quake 2010 "D" 7.5 "Mid"; quake 2010 "C" 7.5 "Low";
   quake 2010 "B" 7.5 "High"; quake 2010 "B" 7.5 "Low"; quake 2010 "A" 7.5 "Low"].

(** *** Across the queries *)

(** Number of rows the bubble map plots for a selection. *)
Definition plotted (selected_country : string) (lo hi : Z) (s : Store) : nat :=
  match update_bubble_map selected_country [lo; hi] s with
  | inr (bubble_map_fig, _, _) => length (fig_points bubble_map_fig)
  | inl _ => 0%nat
  end.

(** ** Facts about grouping *)

Section groupby_facts.
Context {K : Type} `{EqDecision K} (cmp : K → K → comparison) `{!CmpOrder cmp}.

Lemma cmp_irrefl a : cmp a a ≠ Lt.
Proof using Type*. by rewrite (proj2 (cmp_eq a a) eq_refl). Qed.

Lemma tally_keys k x (g : list (K * nat)) :
  x ∈ (tally cmp k g).*1 ↔ x = k ∨ x ∈ g.*1.
Proof using Type*.
  induction g as [|[k' n] g IH]; simpl.
  - rewrite list_elem_of_singleton, elem_of_nil. tauto.
  - destruct (cmp k k') eqn:E; simpl; rewrite ?elem_of_cons; simpl.
    + apply cmp_eq in E as ->. tauto.
    + tauto.
    + rewrite IH. tauto.
Qed.

Lemma tally_ascending k (g : list (K * nat)) :
  ascending cmp g.*1 → ascending cmp (tally cmp k g).*1.
Proof using Type*.
  unfold ascending. induction g as [|[k' n] g IH]; simpl; intros Hs.
  - repeat constructor.
  - apply StronglySorted_inv in Hs as [Hs Hall].
    destruct (cmp k k') eqn:E; simpl.
    + by constructor.
    + constructor; [by constructor|].
      constructor; [done|]. eapply Forall_impl; [exact Hall|].
      intros x Hx. by eapply cmp_trans.
    + constructor; [auto|]. apply Forall_forall. intros x Hx.
      apply tally_keys in Hx as [->|Hx]; [by apply cmp_gt|].
      by eapply Forall_forall in Hall.
Qed.

Lemma groupby_size_ascending (l : list K) : ascending cmp (groupby_size cmp l).*1.
Proof using Type*.
  induction l as [|k l IH]; simpl; [constructor|by apply tally_ascending].
Qed.

Lemma groupby_size_keys (l : list K) x : x ∈ (groupby_size cmp l).*1 ↔ x ∈ l.
Proof using Type*.
  induction l as [|k l IH]; simpl; [done|].
  by rewrite tally_keys, IH, elem_of_cons.
Qed.

Lemma ascending_NoDup (l : list K) : ascending cmp l → NoDup l.
Proof using Type*.
  induction 1 as [|a l _ IH Hall]; constructor; [|done].
  intros Hin. eapply Forall_forall in Hall; [|exact Hin].
  by apply cmp_irrefl in Hall.
Qed.

Lemma groupby_size_NoDup (l : list K) : NoDup (groupby_size cmp l).*1.
Proof using Type*.
  apply ascending_NoDup, groupby_size_ascending.
Qed.

Lemma assoc_None {V} k (g : list (K * V)) : assoc k g = None ↔ k ∉ g.*1.
Proof.
  induction g as [|[k' v] g IH]; simpl.
  - split; [intros _; apply not_elem_of_nil|done].
  - rewrite not_elem_of_cons. case_decide; naive_solver.
Qed.

Lemma assoc_Some {V} k v (g : list (K * V)) :
  NoDup g.*1 → assoc k g = Some v ↔ (k, v) ∈ g.
Proof.
  induction g as [|[k' v'] g IH]; simpl; intros Hnd.
  - split; [done|]. by intros ?%elem_of_nil.
  - apply NoDup_cons in Hnd as [Hk' Hnd]. rewrite elem_of_cons.
    case_decide as E.
    + subst k'. split; [naive_solver|]. intros [?|Hin]; [naive_solver|].
      destruct Hk'. apply list_elem_of_fmap. by exists (k, v).
    + rewrite IH by done. naive_solver.
Qed.

Lemma tally_assoc k k' (g : list (K * nat)) :
  ascending cmp g.*1 →
  assoc k (tally cmp k' g)
  = if decide (k = k') then Some (S (default 0%nat (assoc k g))) else assoc k g.
Proof using Type*.
  unfold ascending. induction g as [|[k0 n] g IH]; simpl; intros Hs.
  - repeat case_decide; naive_solver.
  - apply StronglySorted_inv in Hs as [Hs Hall].
    destruct (cmp k' k0) eqn:E; simpl.
    + apply cmp_eq in E as ->. repeat case_decide; naive_solver.
    + destruct (decide (k' = k)) as [->|Hne].
      * rewrite decide_True by done.
        assert (assoc k ((k0, n) :: g) = None) as Hnone.
        { apply assoc_None. simpl. rewrite not_elem_of_cons. split.
          - intros ->. by apply cmp_irrefl in E.
          - intros Hin. eapply Forall_forall in Hall; [|exact Hin].
            eapply cmp_irrefl, cmp_trans; eauto. }
        simpl in Hnone. by rewrite Hnone.
      * by rewrite (decide_False (P := k = k')) by congruence.
    + rewrite IH by done. destruct (decide (k0 = k)) as [->|Hne]; [|done].
      rewrite (decide_False (P := k = k')); [done|]. intros ->.
      rewrite (proj2 (cmp_eq k' k') eq_refl) in E. done.
Qed.

Lemma occurrences_cons (k k' : K) l :
  occurrences k (k' :: l)
  = if decide (k = k') then S (occurrences k l) else occurrences k l.
Proof.
  unfold occurrences. rewrite filter_cons.
  repeat case_decide; naive_solver.
Qed.

Lemma occurrences_pos (k : K) l : k ∈ l ↔ (0 < occurrences k l)%nat.
Proof.
  unfold occurrences. split.
  - intros Hin. assert (k ∈ filter (λ x, x = k) l) as Hf
      by by apply list_elem_of_filter.
    destruct (filter _ l); [by apply elem_of_nil in Hf|simpl; lia].
  - intros Hlen. destruct (filter (λ x, x = k) l) as [|x f] eqn:E;
      [simpl in Hlen; lia|].
    assert (x ∈ filter (λ x, x = k) l) as Hx by (rewrite E; left).
    apply list_elem_of_filter in Hx as [-> ?]. done.
Qed.

(** The count stored for a key is the number of rows carrying it, and keys
    that no row carries have no entry. *)
Lemma groupby_size_assoc (l : list K) k :
  assoc k (groupby_size cmp l)
  = if decide (k ∈ l) then Some (occurrences k l) else None.
Proof using Type*.
  induction l as [|k' l IH]; simpl; [done|].
  rewrite tally_assoc by apply groupby_size_ascending.
  rewrite IH, occurrences_cons.
  destruct (decide (k = k')) as [->|Hne].
  - rewrite (decide_True (P := k' ∈ k' :: l)) by left.
    case_decide as Hin; simpl; [done|].
    f_equal. f_equal. symmetry.
    destruct (occurrences k' l) eqn:E; [done|].
    destruct Hin. apply occurrences_pos. lia.
  - by rewrite (decide_ext (k ∈ k' :: l) (k ∈ l))
      by (rewrite elem_of_cons; naive_solver).
Qed.

Lemma groupby_size_entry (l : list K) k n :
  (k, n) ∈ groupby_size cmp l ↔ k ∈ l ∧ n = occurrences k l.
Proof using Type*.
  rewrite <- assoc_Some by apply groupby_size_NoDup.
  rewrite groupby_size_assoc. case_decide; naive_solver.
Qed.

Lemma tally_total k (g : list (K * nat)) :
  sum_list (tally cmp k g).*2 = S (sum_list g.*2).
Proof.
  induction g as [|[k' n] g IH]; csimpl; [done|].
  destruct (cmp k k'); csimpl; lia.
Qed.

Lemma groupby_size_total (l : list K) :
  sum_list (groupby_size cmp l).*2 = length l.
Proof.
  induction l as [|k l IH]; simpl; [done|]. by rewrite tally_total, IH.
Qed.

Lemma groupby_size_length (l : list K) :
  length (groupby_size cmp l) = length (remove_dups l).
Proof using Type*.
  rewrite <- (length_fmap fst). apply Permutation_length.
  apply NoDup_Permutation; [apply groupby_size_NoDup|apply NoDup_remove_dups|].
  intros x. by rewrite groupby_size_keys, elem_of_remove_dups.
Qed.

End groupby_facts.

(** The three key orders in use. *)

#[global] Instance Z_cmp_order : CmpOrder Z.compare.
Proof.
  split.
  - apply Z.compare_eq_iff.
  - intros a b. rewrite Z.compare_gt_iff, Z.compare_lt_iff. done.
  - intros a b c. rewrite !Z.compare_lt_iff. lia.
Qed.

Lemma string_compare_OT a b : String.compare a b = String_as_OT.compare a b.
Proof.
  revert b. induction a as [|x a IH]; intros [|y b]; simpl; try done.
Qed.

#[global] Instance string_cmp_order : CmpOrder String.compare.
Proof.
  split.
  - intros a b. split; [apply String.compare_eq_iff|].
    intros ->. induction b as [|x b IH]; simpl; [done|].
    unfold Ascii.compare. by rewrite N.compare_refl.
  - intros a b Hgt. rewrite String.compare_antisym, Hgt. done.
  - intros a b c. rewrite !string_compare_OT.
    apply (StrictOrder_Transitive (R := String_as_OT.lt)).
Qed.

#[global] Instance year_label_cmp_order : CmpOrder cmp_year_label.
Proof.
  split.
  - intros [y1 l1] [y2 l2]. unfold cmp_year_label. simpl.
    destruct (Z.compare_spec y1 y2) as [->| |]; [|split; [done|intros [=]; lia]..].
    rewrite cmp_eq. naive_solver.
  - intros [y1 l1] [y2 l2]. unfold cmp_year_label. simpl.
    destruct (Z.compare_spec y1 y2) as [->| |]; [|done|].
    + rewrite Z.compare_refl. apply cmp_gt.
    + intros _. by rewrite (proj2 (Z.compare_lt_iff y2 y1)) by lia.
  - intros [y1 l1] [y2 l2] [y3 l3]. unfold cmp_year_label. simpl.
    destruct (Z.compare_spec y1 y2) as [->| |]; [|destruct (Z.compare_spec y2 y3) as [->| |]..];
      try done.
    + destruct (y2 ?= y3); try done. apply cmp_trans.
    + intros _ _. by rewrite (proj2 (Z.compare_lt_iff y1 y3)) by lia.
    + intros _ _. by rewrite (proj2 (Z.compare_lt_iff y1 y3)) by lia.
Qed.

(** ** Series and masks *)

Lemma smap_index {A B} (f : A → B) (s : Series A) : (smap f s).*1 = s.*1.
Proof. unfold smap. rewrite <- list_fmap_compose. by apply list_fmap_ext; intros ? []. Qed.

Lemma smap_values {A B} (f : A → B) (s : Series A) : (smap f s).*2 = f <$> s.*2.
Proof. unfold smap. rewrite <- !list_fmap_compose. by apply list_fmap_ext; intros ? []. Qed.

Lemma smap_smap {A B C} (f : A → B) (g : B → C) (s : Series A) :
  smap g (smap f s) = smap (g ∘ f) s.
Proof. unfold smap. rewrite <- list_fmap_compose. by apply list_fmap_ext; intros ? []. Qed.

Lemma series_and_smap {A} (f g : A → bool) (s : Series A) :
  series_and (smap f s) (smap g s) = inr (smap (λ x, f x && g x) s).
Proof.
  unfold series_and. rewrite decide_True by by rewrite !smap_index.
  f_equal. unfold smap. induction s as [|[i x] s IH]; csimpl; [done|].
  by rewrite IH.
Qed.

Lemma check_bool_indexer_same index (key : Series bool) :
  key.*1 = index → check_bool_indexer index key = inr key.*2.
Proof. intros H. unfold check_bool_indexer. by rewrite decide_True. Qed.

Lemma take_mask_filter {A} (f : A → bool) (l : list A) :
  take_mask (f <$> l) l = filter (λ x, f x) l.
Proof.
  induction l as [|x l IH]; csimpl; [done|]. rewrite filter_cons, IH.
  destruct (f x); by simpl.
Qed.

Lemma take_mask_rows {A} (f : A → bool) (rows : list (nat * A)) :
  take_mask (f <$> rows.*2) rows = filter (λ r, f r.2) rows.
Proof. rewrite <- list_fmap_compose. apply (take_mask_filter (f ∘ snd)). Qed.

Lemma keep_passes sc lo hi e : keep sc lo hi e ↔ passes sc lo hi e.
Proof.
  unfold keep, passes, in_years, year_ok.
  destruct (String.eqb_spec sc "All Countries") as [->|Hne].
  - rewrite andb_True, !Is_true_true, !Z.leb_le. naive_solver.
  - rewrite !andb_True, !Is_true_true, !Z.leb_le, String.eqb_eq. naive_solver.
Qed.

(** ** Running the primitives *)

Lemma bind_run {A B} (c : M A) (k : A → M B) s a s' :
  c s = inr (a, s') → bind c k s = k a s'.
Proof. unfold bind. by intros ->. Qed.

(** Run the first command of a sequence with its run lemma. *)
Tactic Notation "mstep" uconstr(H) := rewrite (bind_run _ _ _ _ _ H).

Lemma deref_run s r df : s !! r = Some df → deref r s = inr (df, s).
Proof. unfold deref. by intros ->. Qed.

Lemma col_run {A} s r df (f : Earthquake → A) :
  s !! r = Some df → col r f s = inr (column f df, s).
Proof. intros H. unfold col. by mstep (deref_run _ _ _ H). Qed.

Lemma getitem_bool_run s r df (key : Series bool) :
  s !! r = Some df → key.*1 = df_index df →
  getitem_bool r key s = inr (length s, s ++ [take_rows key.*2 df]).
Proof.
  intros H Hk. unfold getitem_bool.
  mstep (deref_run _ _ _ H).
  by rewrite (check_bool_indexer_same _ _ Hk).
Qed.

Lemma year_mask_run s r df lo hi :
  s !! r = Some df →
  year_mask r [lo; hi] s = inr (smap (year_ok lo hi) (df_rows df), s).
Proof.
  intros H. unfold year_mask. mstep (col_run _ _ _ _ H).
  unfold bind; simpl. unfold between, dt_year, column. by rewrite !smap_smap.
Qed.

Lemma country_year_filter_run s r df sc lo hi :
  s !! r = Some df →
  country_year_filter r sc [lo; hi] s
  = inr (length s,
         s ++ [take_rows (keep sc lo hi <$> (df_rows df).*2) df]).
Proof.
  intros H. unfold country_year_filter, keep.
  destruct (String.eqb sc "All Countries").
  - mstep (year_mask_run _ _ _ _ _ H).
    rewrite (getitem_bool_run _ _ _ _ H) by apply smap_index.
    by rewrite smap_values.
  - mstep (col_run _ _ _ _ H).
    mstep (year_mask_run _ _ _ _ _ H).
    unfold series_eq, column. rewrite smap_smap, series_and_smap.
    unfold bind at 1; simpl.
    rewrite (getitem_bool_run _ _ _ _ H) by apply smap_index.
    by rewrite smap_values.
Qed.

Lemma take_rows_keep sc lo hi df :
  df_rows (take_rows (keep sc lo hi <$> (df_rows df).*2) df)
  = matching sc lo hi (df_rows df).
Proof.
  unfold take_rows, matching; simpl. rewrite take_mask_rows.
  apply list_filter_iff. intros r. apply keep_passes.
Qed.

Lemma lookup_fresh (s : Store) df : (s ++ [df]) !! length s = Some df.
Proof. by rewrite list_lookup_middle. Qed.

Lemma lookup_old (s : Store) df r old :
  s !! r = Some old → (s ++ [df]) !! r = Some old.
Proof. intros H. by apply lookup_app_l_Some. Qed.

Lemma px_frame_run kind s r df title :
  s !! r = Some df →
  px_frame kind r title s
  = inr ({| fig_chart := kind; fig_title := Some title;
            fig_data := Points (df_rows df) |}, s).
Proof. intros H. unfold px_frame. by mstep (deref_run _ _ _ H). Qed.

(** ** The bubble map and the line chart *)

Lemma update_bubble_map_run s df sc lo hi :
  s !! df_earthquakes = Some df →
  let title := [Lit "Earthquakes in "; FStr sc; Lit " from "; FInt lo;
                Lit " to "; FInt hi] in
  let rows := matching sc lo hi (df_rows df) in
  update_bubble_map sc [lo; hi] s
  = inr (mkFigure ScatterGeo (Some title) (Points rows),
         mkFigure Line (Some title) (Points rows),
         s ++ [take_rows (keep sc lo hi <$> (df_rows df).*2) df]).
Proof.
  intros H title rows. unfold update_bubble_map.
  mstep (country_year_filter_run _ _ _ sc lo hi H).
  unfold bind at 1; simpl. unfold px_scatter_geo, px_line.
  mstep (px_frame_run _ _ _ _ _ (lookup_fresh _ _)).
  unfold bind at 1; simpl.
  mstep (px_frame_run _ _ _ _ _ (lookup_fresh _ _)).
  unfold ret, rows. by rewrite <- take_rows_keep.
Qed.

(** ** The scatter chart *)

Lemma copy_run s r df : s !! r = Some df → copy r s = inr (length s, s ++ [df]).
Proof. intros H. unfold copy. by mstep (deref_run _ _ _ H). Qed.

Lemma getitem_bool_mask s r df (key : Series bool) mask :
  s !! r = Some df → check_bool_indexer (df_index df) key = inr mask →
  getitem_bool r key s = inr (length s, s ++ [take_rows mask df]).
Proof.
  intros H Hk. unfold getitem_bool.
  mstep (deref_run _ _ _ H). by rewrite Hk.
Qed.

Lemma assoc_smap {A B} (f : A → B) (src : Series A) i x :
  NoDup src.*1 → (i, x) ∈ src → assoc i (smap f src) = Some (f x).
Proof.
  intros Hnd Hin. apply assoc_Some; [by rewrite smap_index|].
  unfold smap. apply list_elem_of_fmap. by exists (i, x).
Qed.

(** Rows drawn from a table with unique labels, and carrying all its labels
    in order, are the table itself. *)
Lemma same_index_same_rows {A} (rows src : Series A) :
  NoDup src.*1 → rows ⊆ src → rows.*1 = src.*1 → rows = src.
Proof.
  revert src. induction rows as [|[i x] rows IH]; intros [|[j y] src]; try done.
  csimpl. intros [Hj Hnd]%NoDup_cons Hsub [= -> Hidx].
  assert ((j, x) ∈ (j, y) :: src) as Hx by (apply Hsub; left).
  apply elem_of_cons in Hx as [[= ->]|Hx].
  - f_equal. apply IH; [done| |done]. intros r Hr.
    assert (r ∈ (j, y) :: src) as [->|?]%elem_of_cons
      by (apply Hsub; by right); [|done].
    destruct Hj. rewrite <- Hidx. apply list_elem_of_fmap. by exists (j, y).
  - destruct Hj. apply list_elem_of_fmap. by exists (j, x).
Qed.

(** A mask computed on a table with unique labels, applied to rows drawn
    from that table, tests each of those rows. *)
Lemma check_bool_indexer_sub {A} (f : A → bool) (rows src : Series A) :
  NoDup src.*1 → rows ⊆ src →
  check_bool_indexer rows.*1 (smap f src) = inr (f <$> rows.*2).
Proof.
  intros Hnd Hsub. unfold check_bool_indexer. rewrite smap_index.
  case_decide as Hidx.
  - by rewrite smap_values, (same_index_same_rows rows src).
  - rewrite decide_True by done.
    assert (mapM (λ i, assoc i (smap f src)) rows.*1 = Some (f <$> rows.*2)) as ->; [|done].
    apply mapM_Some. rewrite <- list_fmap_compose, Forall2_fmap.
    apply Forall_Forall2_diag, Forall_forall. intros [i x] Hin.
    apply (assoc_smap f src i x); [done|]. by apply Hsub.
Qed.

Lemma matching_sub sc lo hi rows : matching sc lo hi rows ⊆ rows.
Proof. intros r. unfold matching. rewrite list_elem_of_filter. tauto. Qed.

Lemma take_mask_isin (sel : list string) (rows : list (nat * Earthquake)) :
  take_mask ((λ e, bool_decide (depth_label e ∈ sel)) <$> rows.*2) rows
  = filter (λ r, depth_label r.2 ∈ sel) rows.
Proof.
  rewrite take_mask_rows. apply list_filter_iff. intros r.
  apply bool_decide_spec.
Qed.

Lemma isin_mask_sub (sel : list string) sc lo hi df :
  NoDup (df_index df) →
  let years_df := take_rows (keep sc lo hi <$> (df_rows df).*2) df in
  check_bool_indexer (df_index years_df) (isin (column depth_label df) sel)
  = inr ((λ e, bool_decide (depth_label e ∈ sel)) <$> (df_rows years_df).*2).
Proof.
  intros Hnd years_df. unfold df_index, isin, column, years_df.
  rewrite smap_smap, take_rows_keep.
  apply (check_bool_indexer_sub _ _ _ Hnd), matching_sub.
Qed.

Lemma update_scatter_chart_run s df sc (sel : list string) lo hi :
  s !! df_earthquakes = Some df → NoDup (df_index df) →
  ∃ years_df filtered_df,
    update_scatter_chart sc sel [lo; hi] s
    = inr (mkFigure Scatter (Some (scatter_title sc lo hi))
             (Points (scatter_points sc lo hi sel (df_rows df))),
           ((s ++ [df]) ++ [years_df]) ++ [filtered_df]).
Proof.
  intros H Hnd.
  set (years_df := take_rows (keep sc lo hi <$> (df_rows df).*2) df).
  set (mask := (λ e, bool_decide (depth_label e ∈ sel)) <$> (df_rows years_df).*2).
  exists years_df, (take_rows mask years_df). unfold update_scatter_chart.
  mstep (copy_run _ _ _ H).
  mstep (country_year_filter_run _ _ _ sc lo hi (lookup_fresh s df)).
  fold years_df.
  pose proof (lookup_old _ years_df _ _ (lookup_old _ df _ _ H)) as H2.
  mstep (col_run _ _ _ depth_label H2).
  mstep (getitem_bool_mask _ _ _ _ _ (lookup_fresh _ _)
                (isin_mask_sub sel sc lo hi df Hnd)).
  fold years_df mask. unfold bind at 1; simpl. unfold px_scatter.
  rewrite (px_frame_run _ _ _ _ _ (lookup_fresh _ _)).
  do 3 f_equal. unfold scatter_points, mask, take_rows at 1; simpl.
  rewrite take_mask_isin. do 2 f_equal. exact (take_rows_keep sc lo hi df).
Qed.

Lemma update_scatter_chart_direct_run s df sc (sel : list string) lo hi :
  s !! df_earthquakes = Some df →
  ∃ years_df filtered_df,
    update_scatter_chart_direct sc sel [lo; hi] s
    = inr (mkFigure Scatter (Some (scatter_title sc lo hi))
             (Points (scatter_points sc lo hi sel (df_rows df))),
           ((s ++ [df]) ++ [years_df]) ++ [filtered_df]).
Proof.
  intros H.
  set (years_df := take_rows (keep sc lo hi <$> (df_rows df).*2) df).
  set (mask := (λ e, bool_decide (depth_label e ∈ sel)) <$> (df_rows years_df).*2).
  exists years_df, (take_rows mask years_df). unfold update_scatter_chart_direct.
  mstep (copy_run _ _ _ H).
  mstep (country_year_filter_run _ _ _ sc lo hi (lookup_fresh s df)).
  fold years_df.
  mstep (col_run _ _ _ depth_label (lookup_fresh _ _)).
  unfold isin, column. rewrite smap_smap.
  mstep (getitem_bool_run _ _ _ _ (lookup_fresh _ _) (smap_index _ _)).
  rewrite smap_values. fold mask.
  unfold bind at 1; simpl. unfold px_scatter.
  rewrite (px_frame_run _ _ _ _ _ (lookup_fresh _ _)).
  do 3 f_equal. unfold scatter_points, mask, take_rows at 1; simpl.
  f_equal. etrans; [exact (take_mask_isin sel _)|].
  f_equal. exact (take_rows_keep sc lo hi df).
Qed.

(** ** The pie chart *)

Lemma update_pie_chart_run s df lo hi threshold :
  s !! df_earthquakes = Some df →
  ∃ filtered_df,
    update_pie_chart [lo; hi] threshold s
    = inr (mkFigure Pie (Some (pie_title lo hi threshold))
             (Slices (take 5 (groupby_size String.compare
                        (country <$> (pie_rows lo hi threshold (df_rows df)).*2)))),
           s ++ [filtered_df]).
Proof.
  intros H.
  set (key := smap (λ e, year_ok lo hi e && PrimFloat.leb threshold (magnitude e))
                   (df_rows df)).
  exists (take_rows key.*2 df). unfold update_pie_chart.
  mstep (year_mask_run _ _ _ _ _ H).
  mstep (col_run _ _ _ magnitude H).
  unfold series_ge, column. rewrite smap_smap, series_and_smap.
  unfold bind at 1; simpl. fold key.
  mstep (getitem_bool_run _ _ _ key H (smap_index _ _)).
  mstep (col_run _ _ _ country (lookup_fresh _ _)).
  assert ((column country (take_rows key.*2 df)).*2
          = country <$> (pie_rows lo hi threshold (df_rows df)).*2) as ->; [|done].
  unfold column, key, take_rows, pie_rows. rewrite !smap_values. simpl.
  rewrite take_mask_rows. do 2 f_equal. apply list_filter_iff. intros r.
  unfold in_years, strong, year_ok.
  rewrite !andb_True, !Is_true_true, !Z.leb_le. tauto.
Qed.

(** ** The bar chart *)

Lemma setitem_run s r df name (value : Series Z) :
  s !! r = Some df → value.*1 = df_index df →
  setitem r name value s
  = inr (tt, <[r := {| df_rows := df_rows df;
                       df_added := set_added name (Some <$> value.*2) (df_added df) |}]> s).
Proof.
  intros H Hv. unfold setitem.
  mstep (deref_run _ _ _ H). by rewrite decide_True.
Qed.

Lemma insert_fresh (s : Store) df df' : <[length s := df']> (s ++ [df]) = s ++ [df'].
Proof. rewrite insert_app_r_alt by done. by rewrite Nat.sub_diag. Qed.

Lemma assoc_set_added name cells added :
  assoc name (set_added name cells added) = Some cells.
Proof.
  unfold set_added. case_decide as Hin.
  - induction added as [|[n c] added IH]; csimpl in *; [by apply elem_of_nil in Hin|].
    destruct (decide (n = name)) as [->|Hne]; simpl.
    + by rewrite decide_True.
    + rewrite decide_False by done. apply IH.
      apply elem_of_cons in Hin as [?|?]; [congruence|done].
  - induction added as [|[n c] added IH]; csimpl in *.
    + by rewrite decide_True.
    + apply not_elem_of_cons in Hin as [Hne Hin].
      rewrite decide_False by done. by apply IH.
Qed.

Lemma year_label_zip (rows : list (nat * Earthquake)) :
  omap (λ p, (λ y, (y, depth_label p.2.2)) <$> p.1)
       (zip (Some <$> (ts_year <$> (date_time <$> rows.*2))) rows)
  = year_label <$> rows.*2.
Proof. induction rows as [|[i e] rows IH]; csimpl; [done|]. by rewrite IH. Qed.

Lemma assoc_fmap_pair {V} (g : string → V) (labels : list string) c :
  c ∈ labels → assoc c ((λ l, (l, g l)) <$> labels) = Some (g c).
Proof.
  induction labels as [|l labels IH]; csimpl; [by intros ?%elem_of_nil|].
  intros Hin. case_decide as E; [by subst|].
  apply elem_of_cons in Hin as [?|?]; [congruence|by apply IH].
Qed.

Lemma fmap_pair_fst {V} (g : string → V) (labels : list string) :
  ((λ l, (l, g l)) <$> labels).*1 = labels.
Proof. induction labels as [|l labels IH]; csimpl; [done|]. by rewrite IH. Qed.

Lemma getitem_columns_sub index (g : string → list (option nat))
    (labels cols : list string) :
  cols ⊆ labels →
  getitem_columns {| pv_index := index;
                     pv_columns := (λ l, (l, g l)) <$> labels |} cols
  = inr {| pv_index := index; pv_columns := (λ l, (l, g l)) <$> cols |}.
Proof.
  intros Hsub. unfold getitem_columns; simpl.
  assert (mapM (λ c, pair c <$> assoc c ((λ l, (l, g l)) <$> labels)) cols
          = Some ((λ l, (l, g l)) <$> cols)) as ->; [|done].
  apply mapM_Some, Forall2_fmap_r, Forall_Forall2_diag, Forall_forall.
  intros c Hc. by rewrite assoc_fmap_pair by by apply Hsub.
Qed.

Lemma pivot_run (keys : list (Z * string)) :
  let counts := groupby_size cmp_year_label keys in
  let index := sorted_unique Z.compare counts.*1.*1 in
  pivot counts
  = inr {| pv_index := index;
           pv_columns :=
             (λ l, (l, (λ y, assoc (y, l) counts) <$> index))
               <$> sorted_unique String.compare counts.*1.*2 |}.
Proof.
  intros counts index. unfold pivot.
  by rewrite decide_True by apply (groupby_size_NoDup cmp_year_label).
Qed.

Lemma update_bar_chart_run s df sc lo hi (sel : list string) :
  s !! df_earthquakes = Some df →
  ∃ filtered_df,
    update_bar_chart sc [lo; hi] sel s
    = inr (bar_figure (bar_title_of sc lo hi) (bar_table sc lo hi sel (df_rows df)),
           s ++ [filtered_df])
    ∧ is_Some (assoc "year" (df_added filtered_df)).
Proof.
  intros H.
  set (F := take_rows (keep sc lo hi <$> (df_rows df).*2) df).
  set (F' := {| df_rows := df_rows F;
                df_added := set_added "year"
                  (Some <$> (dt_year (column date_time F)).*2) (df_added F) |}).
  exists F'. split; [|unfold F'; simpl; by rewrite assoc_set_added].
  unfold update_bar_chart.
  mstep (country_year_filter_run _ _ _ sc lo hi H).
  fold F.
  mstep (col_run _ _ _ date_time (lookup_fresh _ _)).
  mstep (setitem_run _ _ _ "year" (dt_year (column date_time F)) (lookup_fresh _ _)
       (eq_trans (smap_index _ _) (smap_index _ _))).
  fold F'. rewrite insert_fresh.
  mstep (deref_run _ _ _ (lookup_fresh _ _)).
  assert (year_label_keys F' = inr (year_label <$> (matching sc lo hi (df_rows df)).*2)) as ->.
  { unfold year_label_keys, F'; simpl. rewrite assoc_set_added.
    unfold dt_year, column. rewrite !smap_values, year_label_zip.
    do 3 f_equal. apply take_rows_keep. }
  unfold bind at 1; simpl lift. unfold ret at 1.
  fold (bar_counts sc lo hi (df_rows df)). unfold bar_counts at 1.
  rewrite pivot_run. fold (bar_counts sc lo hi (df_rows df)).
  unfold bind at 1; simpl lift. unfold ret at 1. cbn [pv_columns].
  rewrite fmap_pair_fst.
  fold (bar_columns sc lo hi sel (df_rows df)).
  rewrite getitem_columns_sub.
  2:{ intros c. unfold bar_columns. rewrite list_elem_of_filter. tauto. }
  unfold bind at 1; simpl lift. unfold ret at 1.
  fold (bar_table sc lo hi sel (df_rows df)). unfold bar_figure.
  by destruct (pv_empty _).
Qed.

(** *** Counting with filters *)

Section counting.
Context {A : Type}.
Implicit Types (P Q : A → Prop) (l : list A).

Lemma filter_none P `{!∀ x, Decision (P x)} l :
  (∀ x, x ∈ l → ¬ P x) → filter P l = [].
Proof.
  induction l as [|x l IH]; intros Hl; [done|].
  rewrite filter_cons_False by (apply Hl; left).
  apply IH. intros y Hy. apply Hl. by right.
Qed.

Lemma filter_all P `{!∀ x, Decision (P x)} l :
  (∀ x, x ∈ l → P x) → filter P l = l.
Proof.
  induction l as [|x l IH]; intros Hl; [done|].
  rewrite filter_cons_True by (apply Hl; left).
  f_equal. apply IH. intros y Hy. apply Hl. by right.
Qed.

Lemma filter_iff_in P Q `{!∀ x, Decision (P x), !∀ x, Decision (Q x)} l :
  (∀ x, x ∈ l → P x ↔ Q x) → filter P l = filter Q l.
Proof.
  induction l as [|x l IH]; intros Hl; [done|].
  assert (filter P l = filter Q l) as IH'
    by (apply IH; intros y Hy; apply Hl; by right).
  destruct (decide (P x)) as [HP|HP].
  - rewrite !filter_cons_True; [by rewrite IH'|by apply Hl; [left|]|done].
  - rewrite !filter_cons_False; [done| |done]. intros HQ. apply HP, Hl; [left|done].
Qed.

Lemma length_filter_or P Q `{!∀ x, Decision (P x), !∀ x, Decision (Q x)} l :
  (∀ x, P x → Q x → False) →
  length (filter (λ x, P x ∨ Q x) l)
  = (length (filter P l) + length (filter Q l))%nat.
Proof.
  intros Hdisj. induction l as [|x l IH]; [done|].
  rewrite !filter_cons.
  destruct (decide (P x)), (decide (Q x)); repeat case_decide; simpl;
    rewrite ?IH; try lia; naive_solver.
Qed.

Lemma length_filter_fmap {B} (f : B → A) P `{!∀ x, Decision (P x)} (k : list B) :
  length (filter P (f <$> k)) = length (filter (λ x, P (f x)) k).
Proof.
  induction k as [|x k IH]; [done|]. csimpl. rewrite !filter_cons.
  case_decide; simpl; by rewrite IH.
Qed.

(** Counting the elements that fall in each class of a duplicate-free list
    of classes, and adding up, counts the elements that fall in any. *)
Lemma sum_count_by {B} `{EqDecision B} (h : A → B) (classes : list B) l :
  NoDup classes →
  sum_list ((λ b, length (filter (λ x, h x = b) l)) <$> classes)
  = length (filter (λ x, h x ∈ classes) l).
Proof.
  induction 1 as [|b classes Hb _ IH]; csimpl.
  - rewrite filter_none; [done|]. intros x _. apply not_elem_of_nil.
  - rewrite IH, <- length_filter_or by (intros x <-; done).
    f_equal. apply list_filter_iff. intros x. rewrite elem_of_cons. done.
Qed.

End counting.

(** *** The pivoted table *)

Section bar_table_facts.
Context (sc : string) (lo hi : Z) (rows : list (nat * Earthquake)).

Lemma bar_keys_elem (k : Z * string) :
  k ∈ (bar_counts sc lo hi rows).*1
  ↔ ∃ r, r ∈ matching sc lo hi rows ∧ year_label r.2 = k.
Proof.
  unfold bar_counts. rewrite (groupby_size_keys cmp_year_label).
  rewrite <- list_fmap_compose, list_elem_of_fmap. naive_solver.
Qed.

Lemma bar_index_elem (y : Z) :
  y ∈ sorted_unique Z.compare (bar_counts sc lo hi rows).*1.*1
  ↔ ∃ r, r ∈ matching sc lo hi rows ∧ ts_year (date_time r.2) = y.
Proof.
  unfold sorted_unique. rewrite (groupby_size_keys Z.compare), list_elem_of_fmap.
  split.
  - intros (k & -> & (r & Hr & <-)%bar_keys_elem). by exists r.
  - intros (r & Hr & <-). exists (year_label r.2). split; [done|].
    apply bar_keys_elem. by exists r.
Qed.

Lemma bar_labels_elem (c : string) :
  c ∈ sorted_unique String.compare (bar_counts sc lo hi rows).*1.*2
  ↔ ∃ r, r ∈ matching sc lo hi rows ∧ depth_label r.2 = c.
Proof.
  unfold sorted_unique. rewrite (groupby_size_keys String.compare), list_elem_of_fmap.
  split.
  - intros (k & -> & (r & Hr & <-)%bar_keys_elem). by exists r.
  - intros (r & Hr & <-). exists (year_label r.2). split; [done|].
    apply bar_keys_elem. by exists r.
Qed.

Lemma bar_index_NoDup :
  NoDup (sorted_unique Z.compare (bar_counts sc lo hi rows).*1.*1).
Proof. apply (groupby_size_NoDup Z.compare). Qed.

Lemma bar_index_ascending :
  ascending Z.compare (sorted_unique Z.compare (bar_counts sc lo hi rows).*1.*1).
Proof. apply (groupby_size_ascending Z.compare). Qed.

(** A cell holds the number of filtered rows of its year and label, and is
    missing when there is none. *)
Lemma bar_cell (y : Z) (l : string) :
  assoc (y, l) (bar_counts sc lo hi rows)
  = if decide (cell_count sc lo hi rows y l = 0%nat) then None
    else Some (cell_count sc lo hi rows y l).
Proof.
  unfold bar_counts. rewrite (groupby_size_assoc cmp_year_label).
  assert (occurrences (y, l) (year_label <$> (matching sc lo hi rows).*2)
          = cell_count sc lo hi rows y l) as Hocc.
  { unfold occurrences, cell_count.
    by rewrite <- list_fmap_compose, length_filter_fmap. }
  rewrite <- Hocc. case_decide as Hin.
  - apply occurrences_pos in Hin. rewrite decide_False by lia. done.
  - rewrite decide_True; [done|].
    destruct (occurrences _ _) eqn:E; [done|].
    destruct Hin. apply occurrences_pos. lia.
Qed.

Lemma bar_column_total (l : string) (index : list Z) :
  column_total ((λ y, assoc (y, l) (bar_counts sc lo hi rows)) <$> index)
  = sum_list ((λ y, cell_count sc lo hi rows y l) <$> index).
Proof.
  unfold column_total. induction index as [|y index IH]; csimpl; [done|].
  rewrite bar_cell. case_decide as E; csimpl; rewrite IH; [by rewrite E|done].
Qed.

Lemma bar_column_count (l : string) :
  column_total
    ((λ y, assoc (y, l) (bar_counts sc lo hi rows))
       <$> sorted_unique Z.compare (bar_counts sc lo hi rows).*1.*1)
  = length (filter (λ r, depth_label r.2 = l) (matching sc lo hi rows)).
Proof.
  rewrite bar_column_total.
  set (with_label := filter (λ r, depth_label r.2 = l) (matching sc lo hi rows)).
  rewrite (list_fmap_ext _
    (λ y, length (filter (λ r : nat * Earthquake, ts_year (date_time r.2) = y) with_label))).
  2:{ intros _ y _. unfold cell_count, with_label.
      rewrite list_filter_filter. f_equal. apply list_filter_iff.
      intros r. unfold year_label. naive_solver. }
  rewrite (sum_count_by (λ r : nat * Earthquake, ts_year (date_time r.2)))
    by apply bar_index_NoDup.
  f_equal. apply filter_all. intros r Hr. apply bar_index_elem. exists r.
  split; [|done]. unfold with_label in Hr.
  apply list_elem_of_filter in Hr. tauto.
Qed.

Lemma desired_order_NoDup : NoDup desired_order.
Proof. by apply (bool_decide_unpack _). Qed.

Lemma bar_columns_elem (sel : list string) (c : string) :
  c ∈ bar_columns sc lo hi sel rows
  ↔ c ∈ desired_order ∧ c ∈ sel
    ∧ ∃ r, r ∈ matching sc lo hi rows ∧ depth_label r.2 = c.
Proof.
  unfold bar_columns. rewrite list_elem_of_filter, bar_labels_elem. tauto.
Qed.

Lemma table_total_columns (g : string → list (option nat)) (cols : list string) :
  sum_list (column_total <$> ((λ l, (l, g l)) <$> cols).*2)
  = sum_list ((λ l, column_total (g l)) <$> cols).
Proof. induction cols as [|c cols IH]; csimpl; [done|]. by rewrite IH. Qed.

Lemma bar_table_total (sel : list string) :
  table_total (bar_table sc lo hi sel rows)
  = length (filter (λ r, depth_label r.2 ∈ sel ∧ depth_label r.2 ∈ desired_order)
                   (matching sc lo hi rows)).
Proof.
  unfold table_total, bar_table; cbn [pv_columns].
  rewrite table_total_columns.
  rewrite (list_fmap_ext _
    (λ l, length (filter (λ r : nat * Earthquake, depth_label r.2 = l)
                         (matching sc lo hi rows)))).
  2:{ intros _ l _. exact (bar_column_count l). }
  rewrite (sum_count_by (λ r : nat * Earthquake, depth_label r.2)).
  2:{ apply NoDup_filter, desired_order_NoDup. }
  f_equal. apply filter_iff_in. intros r Hr. rewrite bar_columns_elem.
  naive_solver.
Qed.

Lemma bar_table_empty_total (sel : list string) :
  pv_empty (bar_table sc lo hi sel rows) = true →
  table_total (bar_table sc lo hi sel rows) = 0%nat.
Proof.
  unfold pv_empty, table_total, bar_table; cbn [pv_index pv_columns].
  destruct (sorted_unique Z.compare _) as [|y index].
  - intros _. induction (bar_columns sc lo hi sel rows) as [|c cols IH]; [done|].
    csimpl in *. by rewrite IH.
  - by destruct (bar_columns sc lo hi sel rows).
Qed.

End bar_table_facts.

(** ** The source table *)

Lemma read_csv_index records : df_index (read_csv records) = seq 0 (length records).
Proof. unfold df_index, read_csv; simpl. apply fst_zip. by rewrite length_seq. Qed.

Lemma read_csv_NoDup records : NoDup (df_index (read_csv records)).
Proof. rewrite read_csv_index. apply NoDup_seq. Qed.

Lemma read_csv_rows_NoDup records : NoDup (df_rows (read_csv records)).
Proof. apply (NoDup_fmap_1 fst), read_csv_NoDup. Qed.

Lemma source_lookup records (garbage : Store) :
  (read_csv records :: garbage) !! df_earthquakes = Some (read_csv records).
Proof. done. Qed.

(** ** The properties of the four queries

    A callback starts in a store that holds the source table first,
    followed by whatever frames earlier invocations allocated
    ([garbage]); the year range is the two-element list the range slider
    supplies. *)

(** C1. Geographic and trend query: for every country selection and year
    range the bubble map and the line chart plot the same rows, and a row
    is plotted iff it is a row of the source table whose year lies in the
    range and whose country is the selected one (or the selection is the
    sentinel "All Countries"). *)
Theorem bubble_map_filter_correct records (garbage : Store) sc lo hi :
  ∃ bubble line s' rows,
    update_bubble_map sc [lo; hi] (read_csv records :: garbage)
    = inr (bubble, line, s')
    ∧ fig_data bubble = Points rows ∧ fig_data line = Points rows
    ∧ ∀ r, r ∈ rows ↔
        r ∈ df_rows (read_csv records)
        ∧ lo ≤ ts_year (date_time r.2) ≤ hi
        ∧ (sc = "All Countries" ∨ country r.2 = sc).
Proof.
  eexists _, _, _, _. split.
  { apply update_bubble_map_run, source_lookup. }
  do 2 (split; [done|]). intros r. unfold matching.
  rewrite list_elem_of_filter. unfold passes, in_years. tauto.
Qed.

(** C2. Scatter query: the plotted rows are exactly the source rows that
    pass the country and year predicate and whose depth label is among the
    selected ones; no row is plotted twice. *)
Theorem scatter_exact_set records (garbage : Store) sc (sel : list string) lo hi :
  ∃ fig s' rows,
    update_scatter_chart sc sel [lo; hi] (read_csv records :: garbage)
    = inr (fig, s')
    ∧ fig_data fig = Points rows
    ∧ (∀ r, r ∈ rows ↔
         r ∈ df_rows (read_csv records)
         ∧ passes sc lo hi r.2 ∧ depth_label r.2 ∈ sel)
    ∧ NoDup rows.
Proof.
  destruct (update_scatter_chart_run _ _ sc sel lo hi
              (source_lookup records garbage) (read_csv_NoDup records))
    as (years_df & filtered_df & Hrun).
  eexists _, _, _. split; [exact Hrun|]. split; [done|]. split.
  - intros r. unfold scatter_points, matching.
    rewrite !list_elem_of_filter. tauto.
  - unfold scatter_points, matching.
    apply NoDup_filter, NoDup_filter, read_csv_rows_NoDup.
Qed.

(** C10. Depth-mask alignment in the scatter query: testing the depth label
    with a mask computed over the full source table and aligned to the
    country and year subset gives the same figure as testing it on the
    subset itself. *)
Theorem scatter_mask_alignment records (garbage : Store) sc (sel : list string) lo hi :
  ∃ fig s1 s2,
    update_scatter_chart sc sel [lo; hi] (read_csv records :: garbage)
    = inr (fig, s1)
    ∧ update_scatter_chart_direct sc sel [lo; hi] (read_csv records :: garbage)
      = inr (fig, s2).
Proof.
  destruct (update_scatter_chart_run _ _ sc sel lo hi
              (source_lookup records garbage) (read_csv_NoDup records))
    as (years_df & filtered_df & Hrun).
  destruct (update_scatter_chart_direct_run _ _ sc sel lo hi
              (source_lookup records garbage))
    as (years_df' & filtered_df' & Hdirect).
  eexists _, _, _. split; [exact Hrun|exact Hdirect].
Qed.

(** C5. Pie query: the rows are filtered by year range and by
    [magnitude >= threshold] only (the callback takes no country); the
    number of slices is the smaller of 5 and the number of distinct
    countries among the filtered rows; each slice carries the number of
    filtered rows of its country. *)
Theorem pie_filter_and_slices records (garbage : Store) lo hi threshold :
  let filtered :=
    filter (λ r, lo ≤ ts_year (date_time r.2) ≤ hi
                 ∧ PrimFloat.leb threshold (magnitude r.2))
           (df_rows (read_csv records)) in
  ∃ fig s' slices,
    update_pie_chart [lo; hi] threshold (read_csv records :: garbage)
    = inr (fig, s')
    ∧ fig_data fig = Slices slices
    ∧ length slices
      = (5 `min` length (remove_dups (country <$> filtered.*2)))%nat
    ∧ ∀ c n, (c, n) ∈ slices →
        n = length (filter (λ r, country r.2 = c) filtered).
Proof.
  intros filtered.
  destruct (update_pie_chart_run _ _ lo hi threshold
              (source_lookup records garbage)) as (filtered_df & Hrun).
  eexists _, _, _. split; [exact Hrun|]. split; [done|].
  change (pie_rows lo hi threshold (df_rows (read_csv records))) with filtered.
  split.
  - by rewrite length_take, (groupby_size_length String.compare).
  - intros c n (i & Hi & _)%elem_of_take.
    apply list_elem_of_lookup_2, (groupby_size_entry String.compare) in Hi as [_ ->].
    unfold occurrences. by rewrite <- list_fmap_compose, length_filter_fmap.
Qed.

(** C6. Pie slice selection: the slices are the first five groups of the
    grouping by country, in the order the grouping lists them (ascending
    country name); they are not chosen or ordered by count, as a table
    with six countries shows: the slices are not in descending count order
    and the country with the most earthquakes is left out. *)
Theorem pie_slice_order :
  (∀ records (garbage : Store) lo hi threshold,
     let groups :=
       groupby_size String.compare
         (country <$> (pie_rows lo hi threshold (df_rows (read_csv records))).*2) in
     ∃ fig s',
       update_pie_chart [lo; hi] threshold (read_csv records :: garbage)
       = inr (fig, s')
       ∧ fig_data fig = Slices (take 5 groups)
       ∧ ascending String.compare groups.*1)
  ∧ (∃ fig s',
       update_pie_chart [2001; 2023] 7 [read_csv six_countries] = inr (fig, s')
       ∧ ¬ count_descending (fig_slices fig)
       ∧ ("A", 1%nat) ∈ fig_slices fig
       ∧ (("F", 3%nat) ∉ fig_slices fig)
       ∧ ("F", 3%nat) ∈
           groupby_size String.compare
             (country <$> (pie_rows 2001 2023 7 (df_rows (read_csv six_countries))).*2)).
Proof.
  split.
  - intros records garbage lo hi threshold groups.
    destruct (update_pie_chart_run _ _ lo hi threshold
                (source_lookup records garbage)) as (filtered_df & Hrun).
    eexists _, _. split; [exact Hrun|]. split; [done|].
    apply (groupby_size_ascending String.compare).
  - eexists _, _. split; [by vm_compute|]. cbn [fig_slices fig_data].
    split; [|split; [|split]].
    + intros Hs. apply StronglySorted_inv in Hs as [_ Hall].
      apply Forall_cons in Hall as [Hle _]. simpl in Hle. lia.
    + left.
    + intros Hin. repeat (apply elem_of_cons in Hin as [[=]|Hin]).
      by apply elem_of_nil in Hin.
    + vm_compute. do 5 right. left.
Qed.

Lemma bar_figure_total title sc lo hi (sel : list string) rows :
  cells_total (bar_figure title (bar_table sc lo hi sel rows))
  = table_total (bar_table sc lo hi sel rows).
Proof.
  unfold bar_figure, cells_total.
  destruct (pv_empty _) eqn:E; simpl; [|done].
  by rewrite bar_table_empty_total.
Qed.

(** C3. Depth-stacked counts: for selected labels among Low, Mid and High,
    the counts in the cells of the bar chart add up to the number of source
    rows that pass the country and year filter and carry a selected depth
    label. *)
Theorem bar_chart_count_conservation records (garbage : Store) sc lo hi
    (sel : list string) :
  sel ⊆ desired_order →
  ∃ fig s',
    update_bar_chart sc [lo; hi] sel (read_csv records :: garbage) = inr (fig, s')
    ∧ cells_total fig
      = length (filter (λ r, passes sc lo hi r.2 ∧ depth_label r.2 ∈ sel)
                       (df_rows (read_csv records))).
Proof.
  intros Hvalid.
  destruct (update_bar_chart_run _ _ sc lo hi sel (source_lookup records garbage))
    as (filtered_df & Hrun & _).
  eexists _, _. split; [exact Hrun|].
  rewrite bar_figure_total, bar_table_total. unfold matching.
  rewrite list_filter_filter. f_equal. apply list_filter_iff. intros r.
  specialize (Hvalid (depth_label r.2)). tauto.
Qed.

Lemma scenario_labels_valid : ["Low"; "High"] ⊆ desired_order.
Proof.
  intros c Hc. unfold desired_order.
  repeat (apply elem_of_cons in Hc as [->|Hc]); [left|do 2 right; left|].
  by apply elem_of_nil in Hc.
Defined.

Lemma bar_chart_count_conservation_witness :
  ["Low"; "High"] ⊆ desired_order
  ∧ ∃ fig s',
      update_bar_chart "All Countries" [2010; 2015] ["Low"; "High"]
        (read_csv scenario :: []) = inr (fig, s')
      ∧ cells_total fig
        = length (filter (λ r, passes "All Countries" 2010 2015 r.2
                               ∧ depth_label r.2 ∈ ["Low"; "High"])
                         (df_rows (read_csv scenario))).
Proof.
  split; [exact scenario_labels_valid|].
  exact (bar_chart_count_conservation scenario [] "All Countries" 2010 2015
           ["Low"; "High"] scenario_labels_valid).
Defined.

Lemma bar_table_empty_columns sc lo hi (sel : list string) rows :
  pv_empty (bar_table sc lo hi sel rows) = true →
  bar_columns sc lo hi sel rows = [].
Proof.
  unfold pv_empty, bar_table; cbn [pv_index pv_columns].
  destruct (bar_columns sc lo hi sel rows) as [|c cols] eqn:Ecols; [done|].
  destruct (sorted_unique Z.compare _) as [|y index] eqn:Eindex; [|done].
  intros _. exfalso.
  assert (c ∈ bar_columns sc lo hi sel rows) as Hc by (rewrite Ecols; left).
  apply bar_columns_elem in Hc as (_ & _ & r & Hr & _).
  assert (ts_year (date_time r.2)
          ∈ sorted_unique Z.compare (bar_counts sc lo hi rows).*1.*1) as Hy
    by (apply bar_index_elem; by exists r).
  rewrite Eindex in Hy. by apply elem_of_nil in Hy.
Qed.

Lemma bar_figure_columns title sc lo hi (sel : list string) rows :
  fig_columns (bar_figure title (bar_table sc lo hi sel rows))
  = bar_columns sc lo hi sel rows.
Proof.
  unfold bar_figure, fig_columns.
  destruct (pv_empty _) eqn:E; simpl.
  - by rewrite bar_table_empty_columns.
  - apply fmap_pair_fst.
Qed.

Lemma assoc_zip_fmap {V} (g : Z → V) (index : list Z) y :
  y ∈ index → assoc y (zip index (g <$> index)) = Some (g y).
Proof.
  induction index as [|y' index IH]; csimpl; [by intros ?%elem_of_nil|].
  intros Hin. case_decide as E; [by subst|].
  apply elem_of_cons in Hin as [?|?]; [congruence|by apply IH].
Qed.

Lemma bar_table_cell sc lo hi (sel : list string) rows y l :
  y ∈ pv_index (bar_table sc lo hi sel rows) →
  l ∈ bar_columns sc lo hi sel rows →
  pv_cell (bar_table sc lo hi sel rows) y l
  = Some (if decide (cell_count sc lo hi rows y l = 0%nat) then None
          else Some (cell_count sc lo hi rows y l)).
Proof.
  intros Hy Hl. unfold pv_cell, bar_table in *; cbn [pv_index pv_columns] in *.
  rewrite (assoc_fmap_pair _ _ l Hl).
  rewrite (assoc_zip_fmap (λ y, assoc (y, l) (bar_counts sc lo hi rows)) _ y Hy).
  by rewrite bar_cell.
Qed.

(** C4. Columns and cells of the depth-stacked table: for selected labels
    among Low, Mid and High, the columns of the bar chart are exactly the
    labels that are selected and carried by some filtered row, listed in
    the order Low, Mid, High; the rows of the table are the years of the
    filtered rows; a cell holds the number of filtered rows of its year and
    label when there is one, and is missing (never an explicit zero) when
    there is none. *)
Theorem bar_chart_columns records (garbage : Store) sc lo hi (sel : list string) :
  sel ⊆ desired_order →
  let filtered := matching sc lo hi (df_rows (read_csv records)) in
  ∃ fig s',
    update_bar_chart sc [lo; hi] sel (read_csv records :: garbage) = inr (fig, s')
    ∧ (∀ c, c ∈ fig_columns fig ↔
         c ∈ sel ∧ ∃ r, r ∈ filtered ∧ depth_label r.2 = c)
    ∧ fig_columns fig `sublist_of` desired_order
    ∧ ∀ table, fig_data fig = Bars table →
        (∀ y, y ∈ pv_index table ↔
           ∃ r, r ∈ filtered ∧ ts_year (date_time r.2) = y)
        ∧ ∀ y l, y ∈ pv_index table → l ∈ fig_columns fig →
            let n := length (filter (λ r, year_label r.2 = (y, l)) filtered) in
            pv_cell table y l = Some (if decide (n = 0%nat) then None else Some n).
Proof.
  intros Hvalid filtered.
  destruct (update_bar_chart_run _ _ sc lo hi sel (source_lookup records garbage))
    as (filtered_df & Hrun & _).
  eexists _, _. split; [exact Hrun|]. rewrite bar_figure_columns.
  split; [|split].
  - intros c. rewrite bar_columns_elem. specialize (Hvalid c). tauto.
  - apply sublist_filter.
  - intros table Htable. unfold bar_figure in Htable.
    destruct (pv_empty _); [done|]. injection Htable as <-. split.
    + apply bar_index_elem.
    + intros y l Hy Hl. by apply bar_table_cell.
Qed.

Lemma bar_chart_columns_witness :
  ["Low"; "High"] ⊆ desired_order
  ∧ ∃ fig s',
      update_bar_chart "All Countries" [2010; 2015] ["Low"; "High"]
        [read_csv scenario] = inr (fig, s')
      ∧ fig_columns fig = ["Low"; "High"]
      ∧ cells_total fig = 3%nat.
Proof.
  split; [exact scenario_labels_valid|].
  destruct (bar_chart_columns scenario [] "All Countries" 2010 2015
              ["Low"; "High"] scenario_labels_valid)
    as (fig & s' & Hrun & _).
  exists fig, s'. split; [exact Hrun|].
  vm_compute in Hrun. injection Hrun as <- _. by vm_compute.
Defined.

(** C7. No query raises: on any country selection, two-element year range,
    list of depth labels and magnitude threshold, each of the four
    callbacks returns figures with their titles set.  The bar callback
    returns the bare chart shell, title only, whenever no filtered row is
    left or no column is kept, in particular for an empty list of depth
    labels. *)
Theorem queries_never_raise records (garbage : Store) sc lo hi
    (sel : list string) threshold :
  let s := read_csv records :: garbage in
  let rows := df_rows (read_csv records) in
  (∃ bubble line s',
     update_bubble_map sc [lo; hi] s = inr (bubble, line, s')
     ∧ is_Some (fig_title bubble) ∧ is_Some (fig_title line))
  ∧ (∃ fig s',
       update_bar_chart sc [lo; hi] sel s = inr (fig, s')
       ∧ fig_title fig = Some (bar_title_of sc lo hi)
       ∧ (matching sc lo hi rows = [] ∨ bar_columns sc lo hi sel rows = [] →
          fig = mkFigure Bar (Some (bar_title_of sc lo hi)) NoData))
  ∧ (∃ s', update_bar_chart sc [lo; hi] [] s
           = inr (mkFigure Bar (Some (bar_title_of sc lo hi)) NoData, s'))
  ∧ (∃ fig s',
       update_scatter_chart sc sel [lo; hi] s = inr (fig, s')
       ∧ is_Some (fig_title fig))
  ∧ (∃ fig s',
       update_pie_chart [lo; hi] threshold s = inr (fig, s')
       ∧ is_Some (fig_title fig)).
Proof.
  intros s rows.
  assert (∀ sel' : list string,
            bar_columns sc lo hi sel' rows = [] →
            bar_figure (bar_title_of sc lo hi) (bar_table sc lo hi sel' rows)
            = mkFigure Bar (Some (bar_title_of sc lo hi)) NoData) as Hshell.
  { intros sel' Hcols. unfold bar_figure, pv_empty, bar_table.
    cbn [pv_index pv_columns]. rewrite Hcols.
    by destruct (sorted_unique Z.compare _). }
  split; [|split; [|split; [|split]]].
  - eexists _, _, _. split; [apply update_bubble_map_run, source_lookup|].
    by split.
  - destruct (update_bar_chart_run _ _ sc lo hi sel (source_lookup records garbage))
      as (filtered_df & Hrun & _).
    eexists _, _. split; [exact Hrun|]. split.
    + unfold bar_figure. by destruct (pv_empty _).
    + intros [Hrows|Hcols]; apply Hshell; [|done].
      destruct (bar_columns sc lo hi sel rows) as [|c cols] eqn:E; [done|].
      assert (c ∈ bar_columns sc lo hi sel rows) as Hc by (rewrite E; left).
      apply bar_columns_elem in Hc as (_ & _ & r & Hr & _).
      fold rows in Hr. rewrite Hrows in Hr. by apply elem_of_nil in Hr.
  - destruct (update_bar_chart_run _ _ sc lo hi [] (source_lookup records garbage))
      as (filtered_df & Hrun & _).
    exists (s ++ [filtered_df]). rewrite <- (Hshell []); [exact Hrun|].
    unfold bar_columns. apply filter_none. intros c _ [Hc _].
    by apply elem_of_nil in Hc.
  - destruct (update_scatter_chart_run _ _ sc sel lo hi
                (source_lookup records garbage) (read_csv_NoDup records))
      as (years_df & filtered_df & Hrun).
    eexists _, _. by split; [exact Hrun|].
  - destruct (update_pie_chart_run _ _ lo hi threshold
                (source_lookup records garbage)) as (filtered_df & Hrun).
    eexists _, _. by split; [exact Hrun|].
Qed.

(** C8. Determinism: each callback, invoked a second time with the same
    arguments in the store the first invocation left behind, returns the
    same figures. *)
Theorem queries_deterministic records (garbage : Store) sc lo hi
    (sel : list string) threshold :
  let s := read_csv records :: garbage in
  (∃ out s1 s2,
     update_bubble_map sc [lo; hi] s = inr (out, s1)
     ∧ update_bubble_map sc [lo; hi] s1 = inr (out, s2))
  ∧ (∃ out s1 s2,
       update_bar_chart sc [lo; hi] sel s = inr (out, s1)
       ∧ update_bar_chart sc [lo; hi] sel s1 = inr (out, s2))
  ∧ (∃ out s1 s2,
       update_scatter_chart sc sel [lo; hi] s = inr (out, s1)
       ∧ update_scatter_chart sc sel [lo; hi] s1 = inr (out, s2))
  ∧ (∃ out s1 s2,
       update_pie_chart [lo; hi] threshold s = inr (out, s1)
       ∧ update_pie_chart [lo; hi] threshold s1 = inr (out, s2)).
Proof.
  intros s. pose proof (source_lookup records garbage) as Hsrc. fold s in Hsrc.
  split; [|split; [|split]].
  - eexists _, _, _. split; [by apply update_bubble_map_run|].
    by apply update_bubble_map_run, lookup_old.
  - destruct (update_bar_chart_run _ _ sc lo hi sel Hsrc) as (f1 & Hrun1 & _).
    destruct (update_bar_chart_run _ _ sc lo hi sel (lookup_old _ f1 _ _ Hsrc))
      as (f2 & Hrun2 & _).
    eexists _, _, _. split; [exact Hrun1|exact Hrun2].
  - destruct (update_scatter_chart_run _ _ sc sel lo hi Hsrc (read_csv_NoDup records))
      as (y1 & f1 & Hrun1).
    destruct (update_scatter_chart_run _ _ sc sel lo hi
                (lookup_old _ f1 _ _ (lookup_old _ y1 _ _
                   (lookup_old _ (read_csv records) _ _ Hsrc)))
                (read_csv_NoDup records))
      as (y2 & f2 & Hrun2).
    eexists _, _, _. split; [exact Hrun1|exact Hrun2].
  - destruct (update_pie_chart_run _ _ lo hi threshold Hsrc) as (f1 & Hrun1).
    destruct (update_pie_chart_run _ _ lo hi threshold (lookup_old _ f1 _ _ Hsrc))
      as (f2 & Hrun2).
    eexists _, _, _. split; [exact Hrun1|exact Hrun2].
Qed.

(** C9. The source table is never mutated: after any of the four callbacks
    the frame behind [df_earthquakes] is the table as loaded, which has no
    "year" column; the column assigned by the bar callback is on the
    filtered frame that the callback allocated. *)
Theorem source_table_immutable records (garbage : Store) sc lo hi
    (sel : list string) threshold :
  let s := read_csv records :: garbage in
  (∃ out s', update_bubble_map sc [lo; hi] s = inr (out, s')
             ∧ s' !! df_earthquakes = Some (read_csv records))
  ∧ (∃ out s', update_bar_chart sc [lo; hi] sel s = inr (out, s')
               ∧ s' !! df_earthquakes = Some (read_csv records)
               ∧ ∃ filtered_df, s' !! length s = Some filtered_df
                   ∧ is_Some (assoc "year" (df_added filtered_df)))
  ∧ (∃ out s', update_scatter_chart sc sel [lo; hi] s = inr (out, s')
               ∧ s' !! df_earthquakes = Some (read_csv records))
  ∧ (∃ out s', update_pie_chart [lo; hi] threshold s = inr (out, s')
               ∧ s' !! df_earthquakes = Some (read_csv records))
  ∧ assoc "year" (df_added (read_csv records)) = None.
Proof.
  intros s. pose proof (source_lookup records garbage) as Hsrc. fold s in Hsrc.
  split; [|split; [|split; [|split]]]; [| | | |done].
  - eexists _, _. split; [by apply update_bubble_map_run|].
    by apply lookup_old.
  - destruct (update_bar_chart_run _ _ sc lo hi sel Hsrc) as (f1 & Hrun1 & Hyear).
    eexists _, _. split; [exact Hrun1|]. split; [by apply lookup_old|].
    exists f1. split; [apply lookup_fresh|done].
  - destruct (update_scatter_chart_run _ _ sc sel lo hi Hsrc (read_csv_NoDup records))
      as (y1 & f1 & Hrun1).
    eexists _, _. split; [exact Hrun1|]. by do 3 apply lookup_old.
  - destruct (update_pie_chart_run _ _ lo hi threshold Hsrc) as (f1 & Hrun1).
    eexists _, _. split; [exact Hrun1|]. by apply lookup_old.
Qed.

(** ** Worked scenarios *)

(** All countries, 2010 to 2015, labels Low and High on the scenario table:
    rows for 2010 and 2012, columns Low then High, one missing cell. *)
Example scenario_bar_chart :
  ∃ s',
    update_bar_chart "All Countries" [2010; 2015] ["Low"; "High"]
      [read_csv scenario]
    = inr (mkFigure Bar (Some (bar_title_of "All Countries" 2010 2015))
             (Bars {| pv_index := [2010; 2012];
                      pv_columns := [("Low", [Some 1; Some 1]);
                                     ("High", [None; Some 1])]%nat |}),
           s').
Proof. eexists. by vm_compute. Qed.

(** A threshold above every magnitude: no slice, the title still names the
    threshold. *)
Example scenario_pie_above_maximum :
  ∃ s',
    update_pie_chart [2001; 2023] 9.5 [read_csv scenario]
    = inr (mkFigure Pie (Some (pie_title 2001 2023 9.5)) (Slices []), s').
Proof. eexists. by vm_compute. Qed.

(** No depth label selected: an empty scatter plot. *)
Example scenario_scatter_no_labels :
  ∃ s',
    update_scatter_chart "All Countries" [] [2001; 2023] [read_csv scenario]
    = inr (mkFigure Scatter (Some (scatter_title "All Countries" 2001 2023))
             (Points []), s').
Proof. eexists. by vm_compute. Qed.

(** A year range given as a one-element list is not a valid input: the
    second subscript raises. *)
Example short_year_range_raises :
  update_pie_chart [2001] 7 [read_csv scenario] = inl IndexError.
Proof. by vm_compute. Qed.

(** The mask of the scatter query is indexed by the full table, the frame
    it selects from by the filtered rows only; alignment by label brings
    them together. *)
Example scenario_scatter_alignment :
  ∃ fig s',
    update_scatter_chart "Peru" ["Low"; "Mid"] [2001; 2023] [read_csv scenario]
    = inr (fig, s')
    ∧ (fig_points fig).*1 = [2%nat].
Proof. eexists _, _. split; [by vm_compute|done]. Qed.

(** ** Further properties of the callbacks *)

(** *** The year range argument *)

Lemma short_range_cases (years_range : list Z) :
  (length years_range < 2)%nat →
  years_range = [] ∨ ∃ lo, years_range = [lo].
Proof.
  destruct years_range as [|lo [|hi rest]]; simpl; [by left|right; by exists lo|lia].
Qed.

Lemma year_mask_short s r df (years_range : list Z) :
  s !! r = Some df → (length years_range < 2)%nat →
  year_mask r years_range s = inl IndexError.
Proof.
  intros H [->|[lo ->]]%short_range_cases; unfold year_mask;
    by mstep (col_run _ _ _ _ H).
Qed.

Lemma country_year_filter_short s r df sc (years_range : list Z) :
  s !! r = Some df → (length years_range < 2)%nat →
  country_year_filter r sc years_range s = inl IndexError.
Proof.
  intros H Hlen. unfold country_year_filter.
  destruct (String.eqb sc "All Countries").
  - unfold bind at 1. by rewrite (year_mask_short _ _ _ _ H Hlen).
  - mstep (col_run _ _ _ _ H).
    unfold bind at 1. by rewrite (year_mask_short _ _ _ _ H Hlen).
Qed.

(** X1. A year range with fewer than two elements makes every callback raise
    [IndexError] at its first subscript. *)
Theorem short_year_range_raises_index_error records (garbage : Store) sc
    (sel : list string) threshold (years_range : list Z) :
  (length years_range < 2)%nat →
  let s := read_csv records :: garbage in
  update_bubble_map sc years_range s = inl IndexError
  ∧ update_bar_chart sc years_range sel s = inl IndexError
  ∧ update_scatter_chart sc sel years_range s = inl IndexError
  ∧ update_pie_chart years_range threshold s = inl IndexError.
Proof.
  intros Hlen s. pose proof (source_lookup records garbage) as Hsrc. fold s in Hsrc.
  split; [|split; [|split]].
  - unfold update_bubble_map, bind at 1.
    by rewrite (country_year_filter_short _ _ _ _ _ Hsrc Hlen).
  - unfold update_bar_chart, bind at 1.
    by rewrite (country_year_filter_short _ _ _ _ _ Hsrc Hlen).
  - unfold update_scatter_chart. mstep (copy_run _ _ _ Hsrc).
    unfold bind at 1.
    by rewrite (country_year_filter_short _ _ _ _ _ (lookup_fresh _ _) Hlen).
  - unfold update_pie_chart, bind at 1.
    by rewrite (year_mask_short _ _ _ _ Hsrc Hlen).
Qed.

Lemma short_year_range_raises_index_error_witness :
  (length [2001] < 2)%nat
  ∧ update_bubble_map "Chile" [2001] [read_csv scenario] = inl IndexError
  ∧ update_bar_chart "Chile" [2001] ["Low"] [read_csv scenario] = inl IndexError
  ∧ update_scatter_chart "Chile" ["Low"] [2001] [read_csv scenario] = inl IndexError
  ∧ update_pie_chart [2001] 7 [read_csv scenario] = inl IndexError.
Proof.
  assert (length [2001] < 2)%nat as Hlen by (simpl; lia).
  split; [exact Hlen|].
  exact (short_year_range_raises_index_error scenario [] "Chile" ["Low"] 7
           [2001] Hlen).
Defined.

(** X2. Only the first two elements of the year range are read: further
    elements change nothing. *)
Theorem year_range_tail_ignored sc (sel : list string) threshold lo hi
    (rest : list Z) (s : Store) :
  update_bubble_map sc (lo :: hi :: rest) s = update_bubble_map sc [lo; hi] s
  ∧ update_bar_chart sc (lo :: hi :: rest) sel s
    = update_bar_chart sc [lo; hi] sel s
  ∧ update_scatter_chart sc sel (lo :: hi :: rest) s
    = update_scatter_chart sc sel [lo; hi] s
  ∧ update_pie_chart (lo :: hi :: rest) threshold s
    = update_pie_chart [lo; hi] threshold s.
Proof. repeat split; reflexivity. Qed.

(** *** Selections that match nothing *)

Lemma bar_columns_no_rows sc lo hi (sel : list string) rows :
  matching sc lo hi rows = [] → bar_columns sc lo hi sel rows = [].
Proof.
  intros Hrows. apply filter_none. intros c _ [_ Hc].
  apply bar_labels_elem in Hc as (r & Hr & _).
  rewrite Hrows in Hr. by apply elem_of_nil in Hr.
Qed.

Lemma bar_figure_shell title sc lo hi (sel : list string) rows :
  bar_columns sc lo hi sel rows = [] →
  bar_figure title (bar_table sc lo hi sel rows) = mkFigure Bar (Some title) NoData.
Proof.
  intros Hcols. unfold bar_figure, pv_empty, bar_table.
  cbn [pv_index pv_columns]. rewrite Hcols.
  by destruct (sorted_unique Z.compare _).
Qed.

(** When no row passes the country and year filter, the three callbacks
    driven by it return without plotting anything. *)
Lemma no_match_empty_figures records (garbage : Store) sc lo hi (sel : list string) :
  matching sc lo hi (df_rows (read_csv records)) = [] →
  let s := read_csv records :: garbage in
  (∃ s', update_bubble_map sc [lo; hi] s
         = inr (mkFigure ScatterGeo
                  (Some [Lit "Earthquakes in "; FStr sc; Lit " from "; FInt lo;
                         Lit " to "; FInt hi]) (Points []),
                mkFigure Line
                  (Some [Lit "Earthquakes in "; FStr sc; Lit " from "; FInt lo;
                         Lit " to "; FInt hi]) (Points []), s'))
  ∧ (∃ s', update_bar_chart sc [lo; hi] sel s
           = inr (mkFigure Bar (Some (bar_title_of sc lo hi)) NoData, s'))
  ∧ (∃ s', update_scatter_chart sc sel [lo; hi] s
           = inr (mkFigure Scatter (Some (scatter_title sc lo hi)) (Points []), s')).
Proof.
  intros Hrows s. pose proof (source_lookup records garbage) as Hsrc. fold s in Hsrc.
  split; [|split].
  - eexists. rewrite (update_bubble_map_run _ _ sc lo hi Hsrc).
    by rewrite Hrows.
  - destruct (update_bar_chart_run _ _ sc lo hi sel Hsrc) as (f & Hrun & _).
    eexists. rewrite Hrun.
    by rewrite bar_figure_shell by by apply bar_columns_no_rows.
  - destruct (update_scatter_chart_run _ _ sc sel lo hi Hsrc (read_csv_NoDup records))
      as (y & f & Hrun).
    eexists. rewrite Hrun. unfold scatter_points. by rewrite Hrows.
Qed.

Lemma matching_inverted sc lo hi rows : hi < lo → matching sc lo hi rows = [].
Proof.
  intros Hinv. apply filter_none. intros r _ [Hy _]. unfold in_years in Hy. lia.
Qed.

Lemma matching_unknown sc lo hi (rows : list (nat * Earthquake)) :
  sc ≠ "All Countries" → sc ∉ country <$> rows.*2 →
  matching sc lo hi rows = [].
Proof.
  intros Hsc Hunknown. apply filter_none. intros r Hr [_ [?|Hc]]; [done|].
  apply Hunknown. rewrite <- Hc, <- list_fmap_compose.
  apply list_elem_of_fmap. by exists r.
Qed.

(** X3. An inverted year range (upper end below lower end) raises nothing: the
    map, the line chart and the scatter plot come back without points, the
    bar chart as the bare shell, the pie chart without slices. *)
Theorem inverted_year_range_empty records (garbage : Store) sc lo hi
    (sel : list string) threshold :
  hi < lo →
  let s := read_csv records :: garbage in
  (∃ bubble line s', update_bubble_map sc [lo; hi] s = inr (bubble, line, s')
                     ∧ fig_data bubble = Points [] ∧ fig_data line = Points [])
  ∧ (∃ s', update_bar_chart sc [lo; hi] sel s
           = inr (mkFigure Bar (Some (bar_title_of sc lo hi)) NoData, s'))
  ∧ (∃ fig s', update_scatter_chart sc sel [lo; hi] s = inr (fig, s')
               ∧ fig_data fig = Points [])
  ∧ (∃ fig s', update_pie_chart [lo; hi] threshold s = inr (fig, s')
               ∧ fig_data fig = Slices []).
Proof.
  intros Hinv s.
  destruct (no_match_empty_figures records garbage sc lo hi sel
              (matching_inverted _ _ _ _ Hinv)) as ([s1 H1] & H2 & [s3 H3]).
  split; [|split; [|split]].
  - eexists _, _, _. split; [exact H1|done].
  - exact H2.
  - eexists _, _. split; [exact H3|done].
  - destruct (update_pie_chart_run _ _ lo hi threshold
                (source_lookup records garbage)) as (f & Hrun).
    eexists _, _. split; [exact Hrun|]. cbn [fig_data].
    assert (pie_rows lo hi threshold (df_rows (read_csv records)) = []) as ->; [|done].
    apply filter_none. intros r _ [Hy _]. unfold in_years in Hy. lia.
Qed.

Lemma inverted_year_range_empty_witness :
  2015 < 2020
  ∧ ∃ s', update_bar_chart "All Countries" [2020; 2015] ["Low"; "High"]
            [read_csv scenario]
          = inr (mkFigure Bar (Some (bar_title_of "All Countries" 2020 2015)) NoData, s').
Proof.
  assert (2015 < 2020) as Hinv by lia. split; [exact Hinv|].
  exact (proj1 (proj2 (inverted_year_range_empty scenario [] "All Countries"
                         2020 2015 ["Low"; "High"] 7 Hinv))).
Defined.

(** X4. A country that is neither the sentinel nor the country of any record
    raises nothing: the map, the line chart and the scatter plot come back
    without points and the bar chart as the bare shell. *)
Theorem unknown_country_empty records (garbage : Store) sc lo hi (sel : list string) :
  sc ≠ "All Countries" → sc ∉ country <$> records →
  let s := read_csv records :: garbage in
  (∃ bubble line s', update_bubble_map sc [lo; hi] s = inr (bubble, line, s')
                     ∧ fig_data bubble = Points [] ∧ fig_data line = Points [])
  ∧ (∃ s', update_bar_chart sc [lo; hi] sel s
           = inr (mkFigure Bar (Some (bar_title_of sc lo hi)) NoData, s'))
  ∧ (∃ fig s', update_scatter_chart sc sel [lo; hi] s = inr (fig, s')
               ∧ fig_data fig = Points []).
Proof.
  intros Hsc Hunknown s.
  assert ((df_rows (read_csv records)).*2 = records) as Hrecords.
  { unfold read_csv; simpl. apply snd_zip. by rewrite length_seq. }
  destruct (no_match_empty_figures records garbage sc lo hi sel)
    as ([s1 H1] & H2 & [s3 H3]).
  { apply matching_unknown; [done|]. by rewrite Hrecords. }
  split; [|split].
  - eexists _, _, _. split; [exact H1|done].
  - exact H2.
  - eexists _, _. split; [exact H3|done].
Qed.

Lemma unknown_country_empty_witness :
  "Atlantis" ≠ "All Countries" ∧ ("Atlantis" ∉ country <$> scenario)
  ∧ ∃ fig s', update_scatter_chart "Atlantis" ["Low"] [2001; 2023]
                [read_csv scenario] = inr (fig, s')
              ∧ fig_data fig = Points [].
Proof.
  assert ("Atlantis" ≠ "All Countries") as Hsc by done.
  assert ("Atlantis" ∉ country <$> scenario) as Hunknown.
  { intros Hin. repeat (apply elem_of_cons in Hin as [[=]|Hin]).
    by apply elem_of_nil in Hin. }
  split; [exact Hsc|]. split; [exact Hunknown|].
  exact (proj2 (proj2 (unknown_country_empty scenario [] "Atlantis" 2001 2023
                         ["Low"] Hsc Hunknown))).
Defined.

(** *** The store *)


(** *** The depth selection *)

Lemma bar_table_same_selection sc lo hi (sel1 sel2 : list string) rows :
  (∀ c, c ∈ sel1 ↔ c ∈ sel2) →
  bar_table sc lo hi sel1 rows = bar_table sc lo hi sel2 rows.
Proof.
  intros Hsame. unfold bar_table, bar_columns.
  do 2 f_equal. apply list_filter_iff. intros c. by rewrite Hsame.
Qed.

(** X7. The depth selection acts as a set: two lists with the same elements,
    in any order and with any repetition, give the same bar chart and the
    same scatter plot. *)
Theorem depth_selection_is_a_set records (garbage : Store) sc lo hi
    (sel1 sel2 : list string) :
  (∀ c, c ∈ sel1 ↔ c ∈ sel2) →
  let s := read_csv records :: garbage in
  (∃ fig s1 s2, update_bar_chart sc [lo; hi] sel1 s = inr (fig, s1)
                ∧ update_bar_chart sc [lo; hi] sel2 s = inr (fig, s2))
  ∧ (∃ fig s1 s2, update_scatter_chart sc sel1 [lo; hi] s = inr (fig, s1)
                  ∧ update_scatter_chart sc sel2 [lo; hi] s = inr (fig, s2)).
Proof.
  intros Hsame s. pose proof (source_lookup records garbage) as Hsrc. fold s in Hsrc.
  split.
  - destruct (update_bar_chart_run _ _ sc lo hi sel1 Hsrc) as (f1 & Hrun1 & _).
    destruct (update_bar_chart_run _ _ sc lo hi sel2 Hsrc) as (f2 & Hrun2 & _).
    eexists _, _, _. split; [exact Hrun1|]. rewrite Hrun2.
    by rewrite (bar_table_same_selection _ _ _ sel1 sel2).
  - destruct (update_scatter_chart_run _ _ sc sel1 lo hi Hsrc (read_csv_NoDup records))
      as (y1 & f1 & Hrun1).
    destruct (update_scatter_chart_run _ _ sc sel2 lo hi Hsrc (read_csv_NoDup records))
      as (y2 & f2 & Hrun2).
    assert (scatter_points sc lo hi sel2 (df_rows (read_csv records))
            = scatter_points sc lo hi sel1 (df_rows (read_csv records))) as Hpts.
    { unfold scatter_points. apply list_filter_iff. intros r. symmetry. apply Hsame. }
    rewrite Hpts in Hrun2. eexists _, _, _. split; [exact Hrun1|exact Hrun2].
Qed.

Lemma low_high_any_order (c : string) :
  c ∈ ["Low"; "High"] ↔ c ∈ ["High"; "Low"; "High"].
Proof. rewrite !elem_of_cons, !elem_of_nil. tauto. Defined.

Lemma depth_selection_is_a_set_witness :
  (∀ c : string, c ∈ ["Low"; "High"] ↔ c ∈ ["High"; "Low"; "High"])
  ∧ ∃ fig s1 s2,
      update_bar_chart "All Countries" [2010; 2015] ["Low"; "High"]
        [read_csv scenario] = inr (fig, s1)
      ∧ update_bar_chart "All Countries" [2010; 2015] ["High"; "Low"; "High"]
          [read_csv scenario] = inr (fig, s2).
Proof.
  split; [exact low_high_any_order|].
  exact (proj1 (depth_selection_is_a_set scenario [] "All Countries" 2010 2015
                  ["Low"; "High"] ["High"; "Low"; "High"] low_high_any_order)).
Defined.

(** *** The scatter plot against the map *)

(** X9. For the same country and year range the scatter plot shows a
    subsequence of the rows of the map, which are a subsequence of the rows
    of the source table: file order is kept and nothing is invented. *)
Theorem scatter_within_map_within_source records (garbage : Store) sc lo hi
    (sel : list string) :
  let s := read_csv records :: garbage in
  ∃ bubble line scatter s1 s2,
    update_bubble_map sc [lo; hi] s = inr (bubble, line, s1)
    ∧ update_scatter_chart sc sel [lo; hi] s = inr (scatter, s2)
    ∧ (fig_points scatter `sublist_of` fig_points bubble)
    ∧ (fig_points bubble `sublist_of` df_rows (read_csv records))
    ∧ fig_points line = fig_points bubble.
Proof.
  intros s. pose proof (source_lookup records garbage) as Hsrc. fold s in Hsrc.
  destruct (update_scatter_chart_run _ _ sc sel lo hi Hsrc (read_csv_NoDup records))
    as (y & f & Hrun).
  eexists _, _, _, _, _. split; [by apply update_bubble_map_run|].
  split; [exact Hrun|]. cbn [fig_points fig_data].
  split; [apply sublist_filter|]. split; [apply sublist_filter|done].
Qed.

(** X10. When every row of the map carries a selected depth label, the scatter
    plot shows exactly the rows of the map. *)
Theorem scatter_equals_map_when_labels_selected records (garbage : Store)
    sc lo hi (sel : list string) :
  (∀ r, r ∈ matching sc lo hi (df_rows (read_csv records)) →
        depth_label r.2 ∈ sel) →
  let s := read_csv records :: garbage in
  ∃ bubble line scatter s1 s2,
    update_bubble_map sc [lo; hi] s = inr (bubble, line, s1)
    ∧ update_scatter_chart sc sel [lo; hi] s = inr (scatter, s2)
    ∧ fig_points scatter = fig_points bubble.
Proof.
  intros Hall s. pose proof (source_lookup records garbage) as Hsrc. fold s in Hsrc.
  destruct (update_scatter_chart_run _ _ sc sel lo hi Hsrc (read_csv_NoDup records))
    as (y & f & Hrun).
  eexists _, _, _, _, _. split; [by apply update_bubble_map_run|].
  split; [exact Hrun|]. cbn [fig_points fig_data].
  unfold scatter_points. by apply filter_all.
Qed.

Lemma scenario_labels_all_selected r :
  r ∈ matching "All Countries" 2001 2023 (df_rows (read_csv scenario)) →
  depth_label r.2 ∈ ["Low"; "Mid"; "High"].
Proof.
  intros Hr. apply list_elem_of_filter in Hr as [_ Hr].
  vm_compute in Hr. rewrite !elem_of_cons.
  repeat (apply elem_of_cons in Hr as [->|Hr]); simpl; try tauto.
  by apply elem_of_nil in Hr.
Defined.

Lemma scatter_equals_map_when_labels_selected_witness :
  (∀ r, r ∈ matching "All Countries" 2001 2023 (df_rows (read_csv scenario)) →
        depth_label r.2 ∈ ["Low"; "Mid"; "High"])
  ∧ ∃ bubble line scatter s1 s2,
      update_bubble_map "All Countries" [2001; 2023] [read_csv scenario]
      = inr (bubble, line, s1)
      ∧ update_scatter_chart "All Countries" ["Low"; "Mid"; "High"] [2001; 2023]
          [read_csv scenario] = inr (scatter, s2)
      ∧ fig_points scatter = fig_points bubble.
Proof.
  split; [exact scenario_labels_all_selected|].
  exact (scatter_equals_map_when_labels_selected scenario [] "All Countries"
           2001 2023 ["Low"; "Mid"; "High"] scenario_labels_all_selected).
Defined.

(** *** The bar chart against the scatter plot *)

(** X11. For depth labels among Low, Mid and High, the counts of the bar chart
    add up to the number of points of the scatter plot drawn from the same
    controls. *)
Theorem bar_total_is_scatter_size records (garbage : Store) sc lo hi
    (sel : list string) :
  sel ⊆ desired_order →
  let s := read_csv records :: garbage in
  ∃ bar scatter s1 s2,
    update_bar_chart sc [lo; hi] sel s = inr (bar, s1)
    ∧ update_scatter_chart sc sel [lo; hi] s = inr (scatter, s2)
    ∧ cells_total bar = length (fig_points scatter).
Proof.
  intros Hvalid s. pose proof (source_lookup records garbage) as Hsrc. fold s in Hsrc.
  destruct (update_bar_chart_run _ _ sc lo hi sel Hsrc) as (f1 & Hrun1 & _).
  destruct (update_scatter_chart_run _ _ sc sel lo hi Hsrc (read_csv_NoDup records))
    as (y & f2 & Hrun2).
  eexists _, _, _, _. split; [exact Hrun1|]. split; [exact Hrun2|].
  rewrite bar_figure_total, bar_table_total. cbn [fig_points fig_data].
  unfold scatter_points. f_equal. apply list_filter_iff. intros r.
  specialize (Hvalid (depth_label r.2)). tauto.
Qed.

Lemma bar_total_is_scatter_size_witness :
  ["Low"; "High"] ⊆ desired_order
  ∧ ∃ bar scatter s1 s2,
      update_bar_chart "All Countries" [2010; 2015] ["Low"; "High"]
        [read_csv scenario] = inr (bar, s1)
      ∧ update_scatter_chart "All Countries" ["Low"; "High"] [2010; 2015]
          [read_csv scenario] = inr (scatter, s2)
      ∧ cells_total bar = length (fig_points scatter).
Proof.
  split; [exact scenario_labels_valid|].
  exact (bar_total_is_scatter_size scenario [] "All Countries" 2010 2015
           ["Low"; "High"] scenario_labels_valid).
Defined.

(** X12. The bar chart is the bare shell exactly when no row that passes the
    country and year filter carries a selected label among Low, Mid and
    High; otherwise it shows a table. *)
Theorem bar_shell_iff_nothing_to_count records (garbage : Store) sc lo hi
    (sel : list string) :
  let s := read_csv records :: garbage in
  ∃ fig s',
    update_bar_chart sc [lo; hi] sel s = inr (fig, s')
    ∧ (fig_data fig = NoData ↔
       ∀ r, r ∈ matching sc lo hi (df_rows (read_csv records)) →
            ¬ (depth_label r.2 ∈ sel ∧ depth_label r.2 ∈ desired_order))
    ∧ (fig_data fig ≠ NoData → ∃ table, fig_data fig = Bars table).
Proof.
  intros s.
  destruct (update_bar_chart_run _ _ sc lo hi sel (source_lookup records garbage))
    as (f & Hrun & _).
  eexists _, _. split; [exact Hrun|].
  set (rows := df_rows (read_csv records)). unfold bar_figure.
  destruct (pv_empty (bar_table sc lo hi sel rows)) eqn:E; cbn [fig_data].
  - split; [|done]. split; [|done]. intros _ r Hr [Hsel Hdes].
    apply bar_table_empty_columns in E.
    assert (depth_label r.2 ∈ bar_columns sc lo hi sel rows) as Hc.
    { apply bar_columns_elem. split; [done|]. split; [done|]. by exists r. }
    rewrite E in Hc. by apply elem_of_nil in Hc.
  - split; [|by eexists]. split; [done|]. intros Hnone. exfalso.
    assert (bar_columns sc lo hi sel rows = []) as Hcols.
    { apply filter_none. intros c Hdes [Hsel Hc].
      apply bar_labels_elem in Hc as (r & Hr & <-). by apply (Hnone r). }
    pose proof (bar_figure_shell (bar_title_of sc lo hi) sc lo hi sel rows Hcols) as Hshell.
    unfold bar_figure in Hshell. by rewrite E in Hshell.
Qed.

(** *** Widening the year range *)

Lemma matching_narrower sc lo hi lo' hi' rows :
  lo' ≤ lo → hi ≤ hi' →
  matching sc lo hi rows
  = filter (λ r, in_years lo hi r.2) (matching sc lo' hi' rows).
Proof.
  intros Hlo Hhi. unfold matching. rewrite list_filter_filter.
  apply list_filter_iff. intros r. unfold passes, in_years. split; [|tauto].
  intros [Hy Hc]. split; [done|]. split; [lia|done].
Qed.

(** X15. Widening the year range never removes a row from the map or the line
    chart: the rows for the narrower range are a subsequence of the rows for
    the wider one. *)
Theorem wider_year_range_keeps_rows records (garbage : Store) sc lo hi lo' hi' :
  lo' ≤ lo → hi ≤ hi' →
  let s := read_csv records :: garbage in
  ∃ narrow line wide line' s1 s2,
    update_bubble_map sc [lo; hi] s = inr (narrow, line, s1)
    ∧ update_bubble_map sc [lo'; hi'] s = inr (wide, line', s2)
    ∧ (fig_points narrow `sublist_of` fig_points wide)
    ∧ (fig_points line `sublist_of` fig_points line').
Proof.
  intros Hlo Hhi s. pose proof (source_lookup records garbage) as Hsrc. fold s in Hsrc.
  eexists _, _, _, _, _, _. split; [by apply update_bubble_map_run|].
  split; [by apply update_bubble_map_run|]. cbn [fig_points fig_data].
  rewrite (matching_narrower sc lo hi lo' hi') by done.
  split; apply sublist_filter.
Qed.

Lemma wider_year_range_keeps_rows_witness :
  2001 ≤ 2010 ∧ 2015 ≤ 2023
  ∧ ∃ narrow line wide line' s1 s2,
      update_bubble_map "All Countries" [2010; 2015] [read_csv scenario]
      = inr (narrow, line, s1)
      ∧ update_bubble_map "All Countries" [2001; 2023] [read_csv scenario]
        = inr (wide, line', s2)
      ∧ (fig_points narrow `sublist_of` fig_points wide)
      ∧ (fig_points line `sublist_of` fig_points line').
Proof.
  assert (2001 ≤ 2010) as Hlo by lia. assert (2015 ≤ 2023) as Hhi by lia.
  split; [exact Hlo|]. split; [exact Hhi|].
  exact (wider_year_range_keeps_rows scenario [] "All Countries" 2010 2015
           2001 2023 Hlo Hhi).
Defined.

(** *** What the pie chart accounts for *)

Lemma entries_by_key {K} (f : K → nat) (l : list (K * nat)) :
  (∀ k n, (k, n) ∈ l → n = f k) → l.*2 = f <$> l.*1.
Proof.
  induction l as [|[k n] l IH]; intros Hl; csimpl; [done|].
  rewrite (Hl k n) by left. f_equal. apply IH. intros k' n' Hin.
  apply Hl. by right.
Qed.

(** X17. The slices name distinct countries, and their counts add up to the
    number of filtered rows of those countries; rows of any further country
    are in no slice. *)
Theorem pie_slices_account_for_their_countries records (garbage : Store)
    lo hi threshold :
  let filtered := pie_rows lo hi threshold (df_rows (read_csv records)) in
  ∃ fig s',
    update_pie_chart [lo; hi] threshold (read_csv records :: garbage)
    = inr (fig, s')
    ∧ NoDup (fig_slices fig).*1
    ∧ sum_list (fig_slices fig).*2
      = length (filter (λ r, country r.2 ∈ (fig_slices fig).*1) filtered)
    ∧ (sum_list (fig_slices fig).*2 ≤ length filtered)%nat.
Proof.
  intros filtered.
  destruct (update_pie_chart_run _ _ lo hi threshold
              (source_lookup records garbage)) as (f & Hrun).
  eexists _, _. split; [exact Hrun|]. cbn [fig_slices fig_data].
  fold filtered. set (groups := groupby_size String.compare (country <$> filtered.*2)).
  assert (NoDup (take 5 groups).*1) as Hnd.
  { rewrite fmap_take. eapply sublist_NoDup; [|apply sublist_take].
    apply (groupby_size_NoDup String.compare). }
  assert (sum_list (take 5 groups).*2
          = length (filter (λ r, country r.2 ∈ (take 5 groups).*1) filtered)) as Hsum.
  { rewrite (entries_by_key
               (λ c, length (filter (λ r : nat * Earthquake, country r.2 = c) filtered))).
    - by rewrite (sum_count_by (λ r : nat * Earthquake, country r.2)).
    - intros c n Hin%subseteq_take.
      apply (groupby_size_entry String.compare) in Hin as [_ ->].
      unfold occurrences. by rewrite <- list_fmap_compose, length_filter_fmap. }
  split; [done|]. split; [done|]. rewrite Hsum. apply length_filter.
Qed.

(** X18. With at most five distinct countries among the filtered rows, the
    slices account for every filtered row. *)
Theorem pie_complete_up_to_five_countries records (garbage : Store)
    lo hi threshold :
  let filtered := pie_rows lo hi threshold (df_rows (read_csv records)) in
  (length (remove_dups (country <$> filtered.*2)) ≤ 5)%nat →
  ∃ fig s',
    update_pie_chart [lo; hi] threshold (read_csv records :: garbage)
    = inr (fig, s')
    ∧ sum_list (fig_slices fig).*2 = length filtered
    ∧ ∀ r, r ∈ filtered → country r.2 ∈ (fig_slices fig).*1.
Proof.
  intros filtered Hfew.
  destruct (update_pie_chart_run _ _ lo hi threshold
              (source_lookup records garbage)) as (f & Hrun).
  eexists _, _. split; [exact Hrun|]. cbn [fig_slices fig_data].
  fold filtered. rewrite take_ge
    by by rewrite (groupby_size_length String.compare).
  split.
  - by rewrite groupby_size_total, !length_fmap.
  - intros r Hr. apply (groupby_size_keys String.compare).
    rewrite <- list_fmap_compose. apply list_elem_of_fmap. by exists r.
Qed.

Lemma pie_complete_up_to_five_countries_witness :
  (length (remove_dups
     (country <$> (pie_rows 2001 2023 7 (df_rows (read_csv scenario))).*2)) ≤ 5)%nat
  ∧ ∃ fig s',
      update_pie_chart [2001; 2023] 7 [read_csv scenario] = inr (fig, s')
      ∧ sum_list (fig_slices fig).*2
        = length (pie_rows 2001 2023 7 (df_rows (read_csv scenario)))
      ∧ ∀ r, r ∈ pie_rows 2001 2023 7 (df_rows (read_csv scenario)) →
             country r.2 ∈ (fig_slices fig).*1.
Proof.
  assert (length (remove_dups
     (country <$> (pie_rows 2001 2023 7 (df_rows (read_csv scenario))).*2)) ≤ 5)%nat
    as Hfew by (vm_compute; lia).
  split; [exact Hfew|].
  exact (pie_complete_up_to_five_countries scenario [] 2001 2023 7 Hfew).
Defined.

(** *** Shape of the bar chart's table *)

(** X13. A table shown by the bar chart has at least one row and one column, its
    row labels are years of the selected range in strictly ascending order,
    and every column holds one cell per row label. *)
Theorem bar_table_well_formed records (garbage : Store) sc lo hi
    (sel : list string) :
  ∃ fig s',
    update_bar_chart sc [lo; hi] sel (read_csv records :: garbage) = inr (fig, s')
    ∧ ∀ table, fig_data fig = Bars table →
        pv_index table ≠ [] ∧ pv_columns table ≠ []
        ∧ ascending Z.compare (pv_index table)
        ∧ (∀ y, y ∈ pv_index table → lo ≤ y ≤ hi)
        ∧ Forall (λ c, length c.2 = length (pv_index table)) (pv_columns table).
Proof.
  destruct (update_bar_chart_run _ _ sc lo hi sel (source_lookup records garbage))
    as (f & Hrun & _).
  eexists _, _. split; [exact Hrun|]. intros table Htable.
  unfold bar_figure in Htable.
  set (T := bar_table sc lo hi sel (df_rows (read_csv records))) in *.
  destruct (pv_empty T) eqn:E; [done|]. cbn [fig_data] in Htable.
  assert (table = T) as -> by congruence. clear Htable.
  split; [|split; [|split; [|split]]].
  - intros Hnil. unfold pv_empty in E. by rewrite Hnil in E.
  - intros Hnil. unfold pv_empty in E. rewrite Hnil in E.
    by destruct (pv_index T).
  - apply bar_index_ascending.
  - intros y (r & Hr & <-)%bar_index_elem.
    apply list_elem_of_filter in Hr as [[Hy _] _]. exact Hy.
  - unfold bar_table; cbn [pv_index pv_columns].
    apply Forall_fmap, Forall_forall. intros c _. simpl. by rewrite length_fmap.
Qed.

(** *** The frame the bar chart leaves behind *)

Lemma update_bar_chart_frame s df sc lo hi (sel : list string) :
  s !! df_earthquakes = Some df →
  let F := take_rows (keep sc lo hi <$> (df_rows df).*2) df in
  update_bar_chart sc [lo; hi] sel s
  = inr (bar_figure (bar_title_of sc lo hi) (bar_table sc lo hi sel (df_rows df)),
         s ++ [{| df_rows := df_rows F;
                  df_added := set_added "year"
                    (Some <$> (dt_year (column date_time F)).*2) (df_added F) |}]).
Proof.
  intros H F.
  set (F' := {| df_rows := df_rows F;
                df_added := set_added "year"
                  (Some <$> (dt_year (column date_time F)).*2) (df_added F) |}).
  unfold update_bar_chart.
  mstep (country_year_filter_run _ _ _ sc lo hi H). fold F.
  mstep (col_run _ _ _ date_time (lookup_fresh _ _)).
  mstep (setitem_run _ _ _ "year" (dt_year (column date_time F)) (lookup_fresh _ _)
       (eq_trans (smap_index _ _) (smap_index _ _))).
  fold F'. rewrite insert_fresh.
  mstep (deref_run _ _ _ (lookup_fresh _ _)).
  assert (year_label_keys F' = inr (year_label <$> (matching sc lo hi (df_rows df)).*2)) as ->.
  { unfold year_label_keys, F'; simpl. rewrite assoc_set_added.
    unfold dt_year, column. rewrite !smap_values, year_label_zip.
    do 3 f_equal. apply take_rows_keep. }
  unfold bind at 1; simpl lift. unfold ret at 1.
  fold (bar_counts sc lo hi (df_rows df)). unfold bar_counts at 1.
  rewrite pivot_run. fold (bar_counts sc lo hi (df_rows df)).
  unfold bind at 1; simpl lift. unfold ret at 1. cbn [pv_columns].
  rewrite fmap_pair_fst.
  fold (bar_columns sc lo hi sel (df_rows df)).
  rewrite getitem_columns_sub.
  2:{ intros c. unfold bar_columns. rewrite list_elem_of_filter. tauto. }
  unfold bind at 1; simpl lift. unfold ret at 1.
  fold (bar_table sc lo hi sel (df_rows df)). unfold bar_figure.
  by destruct (pv_empty _).
Qed.

(** X14. The frame allocated by the bar callback holds the rows that pass the
    country and year filter, with their labels, and a "year" column whose
    cell for each row is the year of that row's [date_time]; no cell is
    missing. *)
Theorem bar_chart_year_column records (garbage : Store) sc lo hi
    (sel : list string) :
  let s := read_csv records :: garbage in
  ∃ fig filtered_df,
    update_bar_chart sc [lo; hi] sel s = inr (fig, s ++ [filtered_df])
    ∧ df_rows filtered_df = matching sc lo hi (df_rows (read_csv records))
    ∧ assoc "year" (df_added filtered_df)
      = Some ((λ r, Some (ts_year (date_time r.2))) <$> df_rows filtered_df).
Proof.
  intros s. eexists _, _.
  split; [exact (update_bar_chart_frame s _ sc lo hi sel (source_lookup records garbage))|].
  cbn [df_rows df_added]. split; [apply take_rows_keep|].
  rewrite assoc_set_added. f_equal. unfold dt_year, column.
  rewrite !smap_values, <- !list_fmap_compose. done.
Qed.

(** *** The country dropdown *)

Lemma unique_from_elem {A} `{EqDecision A} (seen l : list A) x :
  x ∈ unique_from seen l ↔ x ∈ l ∧ x ∉ seen.
Proof.
  revert seen. induction l as [|y l IH]; intros seen; simpl.
  - rewrite elem_of_nil. tauto.
  - case_decide as Hy.
    + rewrite IH, elem_of_cons. split; [tauto|].
      intros [[->|?] ?]; tauto.
    + rewrite !elem_of_cons, IH, not_elem_of_cons.
      destruct (decide (x = y)) as [->|]; tauto.
Qed.

Lemma unique_from_NoDup {A} `{EqDecision A} (seen l : list A) :
  NoDup (unique_from seen l).
Proof.
  revert seen. induction l as [|y l IH]; intros seen; simpl; [constructor|].
  case_decide; [apply IH|]. constructor; [|apply IH].
  rewrite unique_from_elem, not_elem_of_cons. tauto.
Qed.

Lemma unique_elem {A} `{EqDecision A} (l : list A) x : x ∈ unique l ↔ x ∈ l.
Proof.
  unfold unique. rewrite unique_from_elem. split; [tauto|].
  intros ?. split; [done|apply not_elem_of_nil].
Qed.

Lemma insert_sorted_perm x l : insert_sorted x l ≡ₚ x :: l.
Proof.
  induction l as [|y l IH]; simpl; [done|].
  destruct (String.compare x y); [done|done|].
  rewrite IH. apply Permutation_swap.
Qed.

Lemma sorted_perm l : sorted l ≡ₚ l.
Proof.
  induction l as [|x l IH]; simpl; [done|].
  by rewrite insert_sorted_perm, IH.
Qed.

Lemma string_le_not_lt a b :
  String.compare a b ≠ Gt → String.compare b a ≠ Lt.
Proof.
  intros Hab Hba. destruct (String.compare a b) eqn:E; [| |done].
  - apply cmp_eq in E as ->. by apply (cmp_irrefl String.compare b).
  - by apply (cmp_irrefl String.compare a), (cmp_trans a b a).
Qed.

Lemma string_le_trans a b c :
  String.compare a b ≠ Gt → String.compare b c ≠ Gt → String.compare a c ≠ Gt.
Proof.
  intros Hab Hbc Hac%cmp_gt. apply (string_le_not_lt b c Hbc).
  destruct (String.compare a b) eqn:E; [| |done].
  - by apply cmp_eq in E as ->.
  - by apply (cmp_trans c a b).
Qed.

Lemma insert_sorted_sorted x l :
  StronglySorted (λ a b, String.compare a b ≠ Gt) l →
  StronglySorted (λ a b, String.compare a b ≠ Gt) (insert_sorted x l).
Proof.
  induction l as [|y l IH]; simpl; intros Hs; [repeat constructor|].
  pose proof Hs as [Hs' Hall]%StronglySorted_inv.
  destruct (String.compare x y) eqn:E.
  - constructor; [done|]. constructor; [by rewrite E|].
    eapply Forall_impl; [exact Hall|]. intros z Hz.
    apply (string_le_trans x y z); [by rewrite E|done].
  - constructor; [done|]. constructor; [by rewrite E|].
    eapply Forall_impl; [exact Hall|]. intros z Hz.
    apply (string_le_trans x y z); [by rewrite E|done].
  - constructor; [by apply IH|].
    apply Forall_forall. intros z Hz.
    rewrite insert_sorted_perm in Hz. apply elem_of_cons in Hz as [->|Hz].
    + apply cmp_gt in E. by rewrite E.
    + by eapply Forall_forall in Hall.
Qed.

Lemma sorted_sorted l :
  StronglySorted (λ a b, String.compare a b ≠ Gt) (sorted l).
Proof.
  induction l as [|x l IH]; simpl; [constructor|by apply insert_sorted_sorted].
Qed.

Lemma sorted_distinct_ascending l :
  NoDup l → ascending String.compare (sorted l).
Proof.
  intros Hnd. rewrite <- sorted_perm in Hnd.
  pose proof (sorted_sorted l) as Hs. unfold ascending.
  induction Hs as [|a k _ IH Hall]; [constructor|].
  apply NoDup_cons in Hnd as [Ha Hnd]. constructor; [by apply IH|].
  apply Forall_forall. intros b Hb.
  eapply Forall_forall in Hall; [|exact Hb].
  destruct (String.compare a b) eqn:E; [|done|done].
  apply cmp_eq in E as ->. done.
Qed.

Lemma dropdown_options_run s df :
  s !! df_earthquakes = Some df →
  dropdown_options s
  = inr (mkOption "All Countries" "All Countries"
           :: ((λ c, mkOption c c) <$> sorted (unique (country <$> (df_rows df).*2))),
         s).
Proof.
  intros H. unfold dropdown_options. mstep (col_run _ _ _ country H).
  unfold ret, column. by rewrite smap_values.
Qed.

Lemma read_csv_records records : (df_rows (read_csv records)).*2 = records.
Proof. unfold read_csv; simpl. apply snd_zip. by rewrite length_seq. Qed.

(** X20. The dropdown offers the sentinel first and then every country of the
    table exactly once, in strictly ascending order, each with its name as
    label and as value; computing it leaves the store as it was. *)
Theorem dropdown_lists_each_country_once records (garbage : Store) :
  let s := read_csv records :: garbage in
  ∃ countries,
    dropdown_options s
    = inr (mkOption "All Countries" "All Countries"
             :: ((λ c, mkOption c c) <$> countries), s)
    ∧ ascending String.compare countries
    ∧ NoDup countries
    ∧ ∀ c, c ∈ countries ↔ ∃ e, e ∈ records ∧ country e = c.
Proof.
  intros s. eexists. split.
  { apply dropdown_options_run, source_lookup. }
  rewrite read_csv_records. split; [|split].
  - apply sorted_distinct_ascending, unique_from_NoDup.
  - rewrite sorted_perm. apply unique_from_NoDup.
  - intros c. rewrite sorted_perm, unique_elem, list_elem_of_fmap. naive_solver.
Qed.

Lemma plotted_run s df sc lo hi :
  s !! df_earthquakes = Some df →
  plotted sc lo hi s = length (matching sc lo hi (df_rows df)).
Proof.
  intros H. unfold plotted. by rewrite (update_bubble_map_run _ _ sc lo hi H).
Qed.

(** X21. Every country the dropdown offers has something to show: once the year
    range covers the table, selecting any option after the sentinel puts at
    least one point on the map. *)
Theorem offered_country_has_rows records (garbage : Store) lo hi :
  (∀ e, e ∈ records → lo ≤ ts_year (date_time e) ≤ hi) →
  let s := read_csv records :: garbage in
  ∃ options,
    dropdown_options s
    = inr (mkOption "All Countries" "All Countries" :: options, s)
    ∧ ∀ option, option ∈ options →
        (0 < plotted (opt_value option) lo hi s)%nat.
Proof.
  intros Hcover s. eexists. split.
  { apply dropdown_options_run, source_lookup. }
  intros option (c & -> & Hc)%list_elem_of_fmap. cbn [opt_value].
  rewrite sorted_perm, unique_elem, list_elem_of_fmap in Hc.
  destruct Hc as (e & -> & He).
  rewrite (plotted_run _ _ _ _ _ (source_lookup records garbage)).
  pose proof He as ([i e'] & -> & Hrow)%list_elem_of_fmap.
  rewrite read_csv_records in He. cbn [snd] in *.
  assert ((i, e') ∈ matching (country e') lo hi (df_rows (read_csv records))) as Hm.
  { apply list_elem_of_filter. split; [|done]. split; [|by right].
    by apply Hcover. }
  destruct (matching _ _ _ _); [by apply elem_of_nil in Hm|simpl; lia].
Qed.

Lemma scenario_years_covered e :
  e ∈ scenario → 2001 ≤ ts_year (date_time e) ≤ 2023.
Proof.
  intros He. unfold scenario in He.
  repeat (apply elem_of_cons in He as [->|He]); simpl; try lia.
  by apply elem_of_nil in He.
Defined.

Lemma offered_country_has_rows_witness :
  (∀ e, e ∈ scenario → 2001 ≤ ts_year (date_time e) ≤ 2023)
  ∧ ∃ options,
      dropdown_options [read_csv scenario]
      = inr (mkOption "All Countries" "All Countries" :: options,
             [read_csv scenario])
      ∧ ∀ option, option ∈ options →
          (0 < plotted (opt_value option) 2001 2023 [read_csv scenario])%nat.
Proof.
  split; [exact scenario_years_covered|].
  exact (offered_country_has_rows scenario [] 2001 2023 scenario_years_covered).
Defined.

(** X22. Unless a country of the table is itself named like the sentinel, the
    country options split the rows shown for "All Countries": the numbers of
    points on the map for the single options add up to the number of points
    for the sentinel. *)
Theorem all_countries_is_the_sum_of_options records (garbage : Store) lo hi :
  "All Countries" ∉ country <$> records →
  let s := read_csv records :: garbage in
  ∃ options,
    dropdown_options s
    = inr (mkOption "All Countries" "All Countries" :: options, s)
    ∧ plotted "All Countries" lo hi s
      = sum_list ((λ option, plotted (opt_value option) lo hi s) <$> options).
Proof.
  intros Hsentinel s. eexists. split.
  { apply dropdown_options_run, source_lookup. }
  set (rows := df_rows (read_csv records)).
  set (countries := sorted (unique (country <$> rows.*2))).
  set (in_range := filter (λ r : nat * Earthquake, in_years lo hi r.2) rows).
  rewrite (plotted_run _ _ _ _ _ (source_lookup records garbage)). fold rows.
  assert (matching "All Countries" lo hi rows = in_range) as ->.
  { apply list_filter_iff. intros r. unfold passes. tauto. }
  rewrite <- list_fmap_compose.
  rewrite (list_fmap_ext _
    (λ c, length (filter (λ r : nat * Earthquake, country r.2 = c) in_range))
    countries).
  - rewrite (sum_count_by (λ r : nat * Earthquake, country r.2)).
    + f_equal. symmetry. apply filter_all. intros r Hr.
      unfold countries. rewrite sorted_perm, unique_elem, <- list_fmap_compose.
      apply list_elem_of_fmap. exists r. split; [done|].
      unfold in_range in Hr. apply list_elem_of_filter in Hr. tauto.
    + unfold countries. rewrite sorted_perm. apply unique_from_NoDup.
  - intros i c Hc. cbn [compose opt_value].
    rewrite (plotted_run _ _ _ _ _ (source_lookup records garbage)). fold rows.
    unfold matching, in_range. rewrite list_filter_filter. f_equal.
    apply list_filter_iff. intros r. unfold passes. split; [|tauto].
    intros [Hy [->|Hr]]; [|tauto]. exfalso. apply Hsentinel.
    apply list_elem_of_lookup_2 in Hc.
    unfold countries in Hc. rewrite sorted_perm, unique_elem in Hc.
    by rewrite <- (read_csv_records records).
Qed.

Lemma scenario_no_sentinel : "All Countries" ∉ country <$> scenario.
Proof.
  intros Hin. repeat (apply elem_of_cons in Hin as [[=]|Hin]).
  by apply elem_of_nil in Hin.
Defined.

Lemma all_countries_is_the_sum_of_options_witness :
  ("All Countries" ∉ country <$> scenario)
  ∧ ∃ options,
      dropdown_options [read_csv scenario]
      = inr (mkOption "All Countries" "All Countries" :: options,
             [read_csv scenario])
      ∧ plotted "All Countries" 2010 2015 [read_csv scenario]
        = sum_list ((λ option, plotted (opt_value option) 2010 2015
                                 [read_csv scenario]) <$> options).
Proof.
  split; [exact scenario_no_sentinel|].
  exact (all_countries_is_the_sum_of_options scenario [] 2010 2015
           scenario_no_sentinel).
Defined.

(** *** Independence from the rest of the store *)

(** X6. The figures depend on the source table and the arguments only: two
    stores that agree on the source table give the same figures, whatever
    other frames they hold. *)
Theorem queries_ignore_other_frames records (garbage1 garbage2 : Store)
    sc lo hi (sel : list string) threshold :
  let s1 := read_csv records :: garbage1 in
  let s2 := read_csv records :: garbage2 in
  (∃ out s1' s2', update_bubble_map sc [lo; hi] s1 = inr (out, s1')
                  ∧ update_bubble_map sc [lo; hi] s2 = inr (out, s2'))
  ∧ (∃ out s1' s2', update_bar_chart sc [lo; hi] sel s1 = inr (out, s1')
                    ∧ update_bar_chart sc [lo; hi] sel s2 = inr (out, s2'))
  ∧ (∃ out s1' s2', update_scatter_chart sc sel [lo; hi] s1 = inr (out, s1')
                    ∧ update_scatter_chart sc sel [lo; hi] s2 = inr (out, s2'))
  ∧ (∃ out s1' s2', update_pie_chart [lo; hi] threshold s1 = inr (out, s1')
                    ∧ update_pie_chart [lo; hi] threshold s2 = inr (out, s2')).
Proof.
  intros s1 s2.
  pose proof (source_lookup records garbage1) as H1. fold s1 in H1.
  pose proof (source_lookup records garbage2) as H2. fold s2 in H2.
  split; [|split; [|split]].
  - eexists _, _, _. split; by apply update_bubble_map_run.
  - eexists _, _, _. split; by apply update_bar_chart_frame.
  - destruct (update_scatter_chart_run _ _ sc sel lo hi H1 (read_csv_NoDup records))
      as (y1 & f1 & Hrun1).
    destruct (update_scatter_chart_run _ _ sc sel lo hi H2 (read_csv_NoDup records))
      as (y2 & f2 & Hrun2).
    eexists _, _, _. split; [exact Hrun1|exact Hrun2].
  - destruct (update_pie_chart_run _ _ lo hi threshold H1) as (f1 & Hrun1).
    destruct (update_pie_chart_run _ _ lo hi threshold H2) as (f2 & Hrun2).
    eexists _, _, _. split; [exact Hrun1|exact Hrun2].
Qed.

(** *** Narrower selections *)

Lemma filter_sublist_impl {A} (P Q : A → Prop)
    `{!∀ x, Decision (P x), !∀ x, Decision (Q x)} (l : list A) :
  (∀ x, P x → Q x) → filter P l `sublist_of` filter Q l.
Proof.
  intros Himpl. rewrite <- (list_filter_filter_l P Q) by done.
  apply sublist_filter.
Qed.

(** X16. The rows the map shows for a single country are a subsequence of the
    rows it shows for "All Countries" over the same years. *)
Theorem country_rows_within_all_countries records (garbage : Store) sc lo hi :
  let s := read_csv records :: garbage in
  ∃ one line all line' s1 s2,
    update_bubble_map sc [lo; hi] s = inr (one, line, s1)
    ∧ update_bubble_map "All Countries" [lo; hi] s = inr (all, line', s2)
    ∧ (fig_points one `sublist_of` fig_points all).
Proof.
  intros s. pose proof (source_lookup records garbage) as Hsrc. fold s in Hsrc.
  eexists _, _, _, _, _, _. split; [by apply update_bubble_map_run|].
  split; [by apply update_bubble_map_run|]. cbn [fig_points fig_data].
  apply filter_sublist_impl. intros r [Hy _]. split; [done|by left].
Qed.

(** X8. Selecting more depth labels never removes a point from the scatter plot
    nor a column from the bar chart. *)
Theorem more_depth_labels_keep_points records (garbage : Store) sc lo hi
    (sel1 sel2 : list string) :
  sel1 ⊆ sel2 →
  let s := read_csv records :: garbage in
  (∃ fewer more s1 s2,
     update_scatter_chart sc sel1 [lo; hi] s = inr (fewer, s1)
     ∧ update_scatter_chart sc sel2 [lo; hi] s = inr (more, s2)
     ∧ (fig_points fewer `sublist_of` fig_points more))
  ∧ (∃ fewer more s1 s2,
       update_bar_chart sc [lo; hi] sel1 s = inr (fewer, s1)
       ∧ update_bar_chart sc [lo; hi] sel2 s = inr (more, s2)
       ∧ (fig_columns fewer `sublist_of` fig_columns more)).
Proof.
  intros Hsub s. pose proof (source_lookup records garbage) as Hsrc. fold s in Hsrc.
  split.
  - destruct (update_scatter_chart_run _ _ sc sel1 lo hi Hsrc (read_csv_NoDup records))
      as (y1 & f1 & Hrun1).
    destruct (update_scatter_chart_run _ _ sc sel2 lo hi Hsrc (read_csv_NoDup records))
      as (y2 & f2 & Hrun2).
    eexists _, _, _, _. split; [exact Hrun1|]. split; [exact Hrun2|].
    cbn [fig_points fig_data]. apply filter_sublist_impl. intros r. apply Hsub.
  - eexists _, _, _, _.
    split; [by apply update_bar_chart_frame|].
    split; [by apply update_bar_chart_frame|].
    rewrite !bar_figure_columns. apply filter_sublist_impl.
    intros c [Hc ?]. split; [by apply Hsub|done].
Qed.

Lemma low_within_low_high : ["Low"] ⊆ ["Low"; "High"].
Proof. intros c Hc. apply elem_of_cons in Hc as [->|Hc]; [left|by apply elem_of_nil in Hc]. Defined.

Lemma more_depth_labels_keep_points_witness :
  ["Low"] ⊆ ["Low"; "High"]
  ∧ ∃ fewer more s1 s2,
      update_scatter_chart "All Countries" ["Low"] [2010; 2015]
        [read_csv scenario] = inr (fewer, s1)
      ∧ update_scatter_chart "All Countries" ["Low"; "High"] [2010; 2015]
          [read_csv scenario] = inr (more, s2)
      ∧ (fig_points fewer `sublist_of` fig_points more).
Proof.
  split; [exact low_within_low_high|].
  exact (proj1 (more_depth_labels_keep_points scenario [] "All Countries"
                  2010 2015 ["Low"] ["Low"; "High"] low_within_low_high)).
Defined.

(** *** Rows the pie chart leaves out *)

Lemma first_groups_sum n (filtered : list (nat * Earthquake)) :
  let groups := groupby_size String.compare (country <$> filtered.*2) in
  NoDup (take n groups).*1
  ∧ sum_list (take n groups).*2
    = length (filter (λ r, country r.2 ∈ (take n groups).*1) filtered).
Proof.
  intros groups.
  assert (NoDup (take n groups).*1) as Hnd.
  { rewrite fmap_take. eapply sublist_NoDup; [|apply sublist_take].
    apply (groupby_size_NoDup String.compare). }
  split; [done|].
  rewrite (entries_by_key
             (λ c, length (filter (λ r : nat * Earthquake, country r.2 = c) filtered))).
  - by rewrite (sum_count_by (λ r : nat * Earthquake, country r.2)).
  - intros c k Hin%subseteq_take.
    apply (groupby_size_entry String.compare) in Hin as [_ ->].
    unfold occurrences. by rewrite <- list_fmap_compose, length_filter_fmap.
Qed.

(** X19. With more than five distinct countries among the filtered rows, the
    chart has five slices and some filtered row is in none of them: the
    counts of the slices add up to less than the number of filtered rows. *)
Theorem pie_drops_rows_beyond_five_countries records (garbage : Store)
    lo hi threshold :
  let filtered := pie_rows lo hi threshold (df_rows (read_csv records)) in
  (5 < length (remove_dups (country <$> filtered.*2)))%nat →
  ∃ fig s',
    update_pie_chart [lo; hi] threshold (read_csv records :: garbage)
    = inr (fig, s')
    ∧ length (fig_slices fig) = 5%nat
    ∧ (sum_list (fig_slices fig).*2 < length filtered)%nat.
Proof.
  intros filtered Hmany.
  destruct (update_pie_chart_run _ _ lo hi threshold
              (source_lookup records garbage)) as (f & Hrun).
  eexists _, _. split; [exact Hrun|]. cbn [fig_slices fig_data]. fold filtered.
  set (groups := groupby_size String.compare (country <$> filtered.*2)).
  assert (5 < length groups)%nat as Hlen.
  { unfold groups. by rewrite (groupby_size_length String.compare). }
  split; [rewrite length_take; lia|].
  destruct (lookup_lt_is_Some_2 groups 5 Hlen) as [[c n] Hsixth].
  pose proof (groupby_size_NoDup String.compare (country <$> filtered.*2)) as Hnd.
  fold groups in Hnd. rewrite <- (take_drop 5 groups), fmap_app in Hnd.
  apply NoDup_app in Hnd as (_ & Hdisjoint & _).
  assert (c ∈ (drop 5 groups).*1) as Hdrop.
  { apply list_elem_of_fmap. exists (c, n). split; [done|].
    apply list_elem_of_lookup. exists 0%nat. by rewrite lookup_drop, Nat.add_0_r. }
  assert (c ∈ country <$> filtered.*2) as Hc.
  { apply (groupby_size_keys String.compare). fold groups.
    apply list_elem_of_fmap. exists (c, n). split; [done|].
    by eapply list_elem_of_lookup_2. }
  rewrite <- list_fmap_compose in Hc.
  apply list_elem_of_fmap in Hc as (r & -> & Hr).
  destruct (first_groups_sum 5 filtered) as [_ Hsum]. fold groups in Hsum.
  rewrite Hsum. apply (length_filter_lt _ _ r); [done|].
  intros Hin. by apply (Hdisjoint (country r.2)).
Qed.

Lemma pie_drops_rows_beyond_five_countries_witness :
  (5 < length (remove_dups
     (country <$> (pie_rows 2001 2023 7 (df_rows (read_csv six_countries))).*2)))%nat
  ∧ ∃ fig s',
      update_pie_chart [2001; 2023] 7 [read_csv six_countries] = inr (fig, s')
      ∧ length (fig_slices fig) = 5%nat
      ∧ (sum_list (fig_slices fig).*2
         < length (pie_rows 2001 2023 7 (df_rows (read_csv six_countries))))%nat.
Proof.
  assert (5 < length (remove_dups
     (country <$> (pie_rows 2001 2023 7 (df_rows (read_csv six_countries))).*2)))%nat
    as Hmany by (vm_compute; lia).
  split; [exact Hmany|].
  exact (pie_drops_rows_beyond_five_countries six_countries [] 2001 2023 7 Hmany).
Defined.
